(** * APBA binary decoders: a shallow embedding and its verified properties

    The development embeds the two decoders of the repository,

    - [scripts/analysis/parse_apba_binary.py]  (class [APBAPlayerParser])
    - [scripts/analysis/parse_apba_outcomes.py] (class [APBAOutcomeParser])

    and the boundary search of [scripts/analyze_apba_structure.py], as
    executable Rocq functions and proves properties of them.

    Conventions of the embedding:
    - a Python [bytes] object is a [list byte]; an element read from it is
      an integer in [0, 255], here a [Z];
    - a Python [str] obtained by [decode('ascii', errors='ignore')] only
      holds code points below 128, here a [string] of [ascii] characters;
    - a Python [int] is a [Z];
    - a Python [dict] used as a map is a [gmap];
    - [while] loops carry an explicit iteration budget; running out of it
      is a distinct result ([OutOfFuel]) that is proved never to occur. *)

From Stdlib Require Import ZArith List Strings.String Strings.Ascii Strings.Byte Lia Bool.
From stdpp Require Import gmap strings list sorting.

Local Open Scope Z_scope.

(** ** Results of Python computations *)

(** A computation returns a value, raises an exception that propagates to
    its caller, or (in the model only) exhausts its iteration budget. *)
Inductive res (A : Type) : Type :=
| Ret (a : A)
| Raise
| OutOfFuel.
Arguments Ret {A} a.
Arguments Raise {A}.
Arguments OutOfFuel {A}.

#[global] Instance res_bind : MBind res := fun A B (k : A -> res B) (m : res A) =>
  match m with
  | Ret a => k a
  | Raise => Raise
  | OutOfFuel => OutOfFuel
  end.

(** [try: m  except: h] ; the budget marker is not an exception. *)
Definition try_except {A} (m : res A) (h : res A) : res A :=
  match m with
  | Raise => h
  | other => other
  end.

(** An [option] read as "value or exception". *)
Definition of_option {A} (o : option A) : res A :=
  match o with
  | Some a => Ret a
  | None => Raise
  end.

(** ** The fragment of Python's [bytes] and [str] the decoders use *)
Module Py.

(** [len(l)] *)
Definition len {A} (l : list A) : Z := Z.of_nat (length l).

(** The integer value of a byte. *)
Definition byte_val (b : byte) : Z := Z.of_N (Byte.to_N b).

(** [data[i]] on a sequence: a negative index counts from the end, an
    index out of range raises [IndexError] (here [None]). *)
Definition item {A} (data : list A) (i : Z) : option A :=
  let j := if i <? 0 then i + len data else i in
  if (0 <=? j) && (j <? len data) then data !! Z.to_nat j else None.

(** [data[i]] on [bytes]: the element as an integer. *)
Definition index (data : list byte) (i : Z) : option Z :=
  byte_val <$> item data i.

(** How a slice bound is normalised: a negative bound counts from the
    end, and the result is clamped to [0, len]. *)
Definition clamp (n i : Z) : Z :=
  if i <? 0 then Z.max 0 (i + n) else Z.min i n.

(** [data[a:b]]; never raises. *)
Definition slice {A} (data : list A) (a b : Z) : list A :=
  let lo := clamp (len data) a in
  let hi := clamp (len data) b in
  take (Z.to_nat (hi - lo)) (drop (Z.to_nat lo) data).

(** [bs.decode('ascii', errors='ignore')]: every byte of value 128 or
    more is dropped, every other byte becomes the character of the same
    code (control characters included). *)
Fixpoint decode_ascii_ignore (bs : list byte) : string :=
  match bs with
  | [] => EmptyString
  | b :: bs' =>
      if byte_val b <? 128
      then String (ascii_of_byte b) (decode_ascii_ignore bs')
      else decode_ascii_ignore bs'
  end.

Definition ord (c : ascii) : Z := Z.of_N (N_of_ascii c).

(** [c.isspace()] on a character below 128: TAB, LF, VT, FF, CR, the
    four separators FS, GS, RS, US and the space. *)
Definition isspace (c : ascii) : bool :=
  ((9 <=? ord c) && (ord c <=? 13)) || ((28 <=? ord c) && (ord c <=? 32)).

(** [c.isprintable()] on a character below 128. *)
Definition isprintable (c : ascii) : bool :=
  (32 <=? ord c) && (ord c <=? 126).

Fixpoint lstrip (s : string) : string :=
  match s with
  | EmptyString => EmptyString
  | String c s' => if isspace c then lstrip s' else s
  end.

Fixpoint rstrip (s : string) : string :=
  match s with
  | EmptyString => EmptyString
  | String c s' =>
      match rstrip s' with
      | EmptyString => if isspace c then EmptyString else String c EmptyString
      | t => String c t
      end
  end.

(** [s.strip()] *)
Definition strip (s : string) : string := rstrip (lstrip s).

(** [s.split(sep)] for a one-character separator: every occurrence of
    [sep] cuts, so adjacent separators yield empty pieces and the empty
    string yields one empty piece. *)
Fixpoint split (sep : ascii) (s : string) : list string :=
  match s with
  | EmptyString => [EmptyString]
  | String c s' =>
      if Ascii.eqb c sep then EmptyString :: split sep s'
      else match split sep s' with
           | w :: ws => String c w :: ws
           | [] => [String c EmptyString]
           end
  end.

(** Truth value of a [str]: non-empty. *)
Definition truthy (s : string) : bool :=
  match s with
  | EmptyString => false
  | String _ _ => true
  end.

(** [''.join(c if keep(c) else '' for c in s)] *)
Fixpoint keep_chars (keep : ascii -> bool) (s : string) : string :=
  match s with
  | EmptyString => EmptyString
  | String c s' =>
      if keep c then String c (keep_chars keep s') else keep_chars keep s'
  end.

(** [struct.unpack('<I', bs)[0]]: raises [struct.error] unless [bs] has
    exactly four bytes. *)
Definition unpack_u32_le (bs : list byte) : option Z :=
  match bs with
  | [b0; b1; b2; b3] =>
      Some (byte_val b0 + Z.shiftl (byte_val b1) 8
            + Z.shiftl (byte_val b2) 16 + Z.shiftl (byte_val b3) 24)
  | _ => None
  end.

End Py.

(** ** [parse_apba_binary.py] : class [APBAPlayerParser] *)
Module APBAPlayerParser.
Import Py.

(** The value of [player['raw_ratings']]. *)
Record RawRatings : Type := mkRawRatings {
  byte_0x20 : Z;
  byte_0x21 : Z;
  byte_0x22 : Z;
  byte_0x23 : Z;
  byte_0x24 : Z;
  byte_0x25 : Z
}.

(** The dictionary [parse_player_record] returns, one field per key. *)
Record PlayerRecord : Type := mkPlayerRecord {
  last_name : string;
  first_name : string;
  position : string;
  bats : string;
  card_number : string;
  grade : string;
  throws : string;
  raw_ratings : RawRatings;
  batting_chart_raw : list Z;
  position_string : string
}.

Definition RECORD_SIZE : Z := 146.

(** [pos_string = record[0x86:0x92].decode('ascii', errors='ignore').strip()] *)
Definition descriptor_string (record : list byte) : string :=
  strip (decode_ascii_ignore (slice record 0x86 0x92)).

(** [parts = [p for p in pos_string.split(' ') if p]] *)
Definition descriptor_parts (pos_string : string) : list string :=
  filter (fun p => truthy p = true) (split " "%char pos_string).

(** [record[0x01:0x01+15].decode('ascii', errors='ignore').strip()] *)
Definition last_name_text (record : list byte) : string :=
  strip (decode_ascii_ignore (slice record 0x01 (0x01 + 15))).

(** [record[0x11:0x11+15].decode('ascii', errors='ignore').strip()] *)
Definition first_name_text (record : list byte) : string :=
  strip (decode_ascii_ignore (slice record 0x11 (0x11 + 15))).

(** The body of the [try] block of [parse_player_record]. [None] is the
    method's result [None], reached by an explicit [return None] or by
    the handler [except Exception: return None] after a failed index. *)
Definition parse_player_record_body (record : list byte) : option PlayerRecord :=
  last_name_len ← index record 0x00;
  if negb ((0 <? last_name_len) && (last_name_len <? 20)) then None else
  let last_name := last_name_text record in
  first_name_len ← index record 0x10;
  let first_name :=
    if (0 <? first_name_len) && (first_name_len <? 20)
    then first_name_text record
    else EmptyString in
  if negb (truthy last_name) then None else
  let pos_string := descriptor_string record in
  let parts := descriptor_parts pos_string in
  position_ ← (if 1 <=? len parts then item parts 0 else Some "UNK"%string);
  grade_ ← (if 2 <=? len parts then item parts 1 else Some "0"%string);
  bats_ ← (if 3 <=? len parts then item parts 2 else Some "R"%string);
  card_ ← (if 4 <=? len parts then item parts 3 else Some "0"%string);
  r20 ← index record 0x20;
  r21 ← index record 0x21;
  r22 ← index record 0x22;
  r23 ← index record 0x23;
  r24 ← index record 0x24;
  r25 ← index record 0x25;
  batting_chart ← mapM (index record) (seqZ 0x30 (0x80 - 0x30));
  Some {| last_name := last_name;
          first_name := first_name;
          position := position_;
          bats := bats_;
          card_number := card_;
          grade := grade_;
          throws := bats_;
          raw_ratings := mkRawRatings r20 r21 r22 r23 r24 r25;
          batting_chart_raw := batting_chart;
          position_string := pos_string |}.

(** [parse_player_record(self, record)]; the method never reads [self]. *)
Definition parse_player_record (record : list byte) : option PlayerRecord :=
  if len record <? RECORD_SIZE then None
  else parse_player_record_body record.

(** The [while] loop of [analyze_structure]; [players] is [self.players].
    [parse_player_record] handles every exception itself and the printed
    keys are always present, so the loop's own [except] branch
    ([offset += 1]) is never entered and every iteration ends with
    [offset += 146]. *)
Fixpoint analyze_loop (fuel : nat) (data : list byte) (offset : Z)
    (players : list PlayerRecord) : res (list PlayerRecord) :=
  if negb (offset <? len data) then Ret players
  else if len data <? offset + 150 then Ret players
  else
    match fuel with
    | O => OutOfFuel
    | S fuel' =>
        let players' :=
          match parse_player_record (slice data offset (offset + 200)) with
          | Some player => players ++ [player]
          | None => players
          end in
        analyze_loop fuel' data (offset + 146) players'
    end.

(** [analyze_structure(self, data)] as a transformer of [self.players]. *)
Definition analyze_structure (data : list byte) (players : list PlayerRecord)
  : res (list PlayerRecord) :=
  analyze_loop (length data) data 0 players.

(** [parse_file] on a fresh instance ([self.players = []]), given the
    bytes read from the file. *)
Definition parse_file (data : list byte) : res (list PlayerRecord) :=
  analyze_structure data [].

End APBAPlayerParser.

(** ** [parse_apba_outcomes.py] : class [APBAOutcomeParser] *)
Module APBAOutcomeParser.
Import Py.

(** One value of the dictionaries [numeric_outcomes] and [main_outcomes]:
    [{'code': ..., 'offset': ..., 'message': ...}]. *)
Record OutcomeEntry : Type := mkOutcomeEntry {
  code : Z;
  offset : Z;
  message : string
}.

(** The loop of [extract_message]:
    [while end < limit and data[end] != 0: end += 1]
    where [limit = min(offset + max_len, len(data))]. The second operand
    of [and] is evaluated only when the first holds. *)
Fixpoint scan_end (fuel : nat) (data : list byte) (limit end_ : Z) : res Z :=
  if negb (end_ <? limit) then Ret end_
  else
    b ← of_option (index data end_);
    if b =? 0 then Ret end_
    else
      match fuel with
      | O => OutOfFuel
      | S fuel' => scan_end fuel' data limit (end_ + 1)
      end.

(** The characters [extract_message] keeps:
    [c.isprintable() or c == ' ']. *)
Definition keep_printable (c : ascii) : bool :=
  isprintable c || Ascii.eqb c " "%char.

(** [extract_message(self, data, offset, max_len)]. The loop runs at most
    [max_len] times, which is its budget. The [try] around the decoding
    has nothing to catch: decoding with [errors='ignore'], the join and
    [strip] do not raise. *)
Definition extract_message (data : list byte) (offset max_len : Z) : res string :=
  if len data <=? offset then Ret EmptyString
  else
    end_ ← scan_end (Z.to_nat max_len) data
              (Z.min (offset + max_len) (len data)) offset;
    let text := decode_ascii_ignore (slice data offset end_) in
    let text := keep_chars keep_printable text in
    Ret (strip text).

(** The default of the parameter [max_len]. *)
Definition DEFAULT_MAX_LEN : Z := 200.

(** The body of the [try] of [parse_numeric_table] with its handler
    [except: pass]. *)
Definition numeric_entry (msg_data : list byte) (outcome_index value : Z)
    (numeric_outcomes : gmap Z OutcomeEntry) : res (gmap Z OutcomeEntry) :=
  try_except
    (msg_text ← extract_message msg_data value DEFAULT_MAX_LEN;
     if truthy msg_text
     then Ret (<[outcome_index := mkOutcomeEntry outcome_index value msg_text]>
                 numeric_outcomes)
     else Ret numeric_outcomes)
    (Ret numeric_outcomes).

(** The [if value == 0xFFFFFFFF: pass / elif value < len(msg_data): ...]
    of [parse_numeric_table]. *)
Definition numeric_slot (msg_data : list byte) (outcome_index value : Z)
    (numeric_outcomes : gmap Z OutcomeEntry) : res (gmap Z OutcomeEntry) :=
  if value =? 0xFFFFFFFF then Ret numeric_outcomes
  else if value <? len msg_data
       then numeric_entry msg_data outcome_index value numeric_outcomes
       else Ret numeric_outcomes.

(** The [while] loop of [parse_numeric_table]. *)
Fixpoint numeric_loop (fuel : nat) (tbl_data msg_data : list byte)
    (offset outcome_index : Z) (numeric_outcomes : gmap Z OutcomeEntry)
  : res (gmap Z OutcomeEntry) :=
  if negb (offset <? len tbl_data - 4) then Ret numeric_outcomes
  else
    match fuel with
    | O => OutOfFuel
    | S fuel' =>
        value ← of_option (unpack_u32_le (slice tbl_data offset (offset + 4)));
        numeric_outcomes' ←
          numeric_slot msg_data outcome_index value numeric_outcomes;
        numeric_loop fuel' tbl_data msg_data (offset + 4) (outcome_index + 1)
          numeric_outcomes'
    end.

(** The dictionary [numeric_outcomes] that [parse_numeric_table] builds
    from the contents of [B3EHNUM.TBL] and [B3EHNUM.MSG]. *)
Definition numeric_outcomes (tbl_data msg_data : list byte)
  : res (gmap Z OutcomeEntry) :=
  numeric_loop (length tbl_data) tbl_data msg_data 0x20 0 ∅.

(** The body of the [try] of [parse_main_outcome_table] with its handler
    [except: pass]. *)
Definition main_entry (msg_data : list byte) (outcome_index msg_offset : Z)
    (main_outcomes : gmap Z OutcomeEntry) : res (gmap Z OutcomeEntry) :=
  try_except
    (msg_text ← extract_message msg_data msg_offset 100;
     if truthy msg_text && (2 <? Z.of_nat (String.length msg_text))
     then Ret (<[outcome_index := mkOutcomeEntry outcome_index msg_offset msg_text]>
                 main_outcomes)
     else Ret main_outcomes)
    (Ret main_outcomes).

(** The [if msg_offset < len(msg_data): ...] of
    [parse_main_outcome_table]; the sentinel has no test of its own
    here. *)
Definition main_slot (msg_data : list byte) (outcome_index msg_offset : Z)
    (main_outcomes : gmap Z OutcomeEntry) : res (gmap Z OutcomeEntry) :=
  if msg_offset <? len msg_data
  then main_entry msg_data outcome_index msg_offset main_outcomes
  else Ret main_outcomes.

(** The loop [for i in range(max_outcomes)] of
    [parse_main_outcome_table], [n] iterations being left. *)
Fixpoint main_loop (n : nat) (tbl_data msg_data : list byte)
    (offset outcome_index : Z) (main_outcomes : gmap Z OutcomeEntry)
  : res (gmap Z OutcomeEntry) :=
  match n with
  | O => Ret main_outcomes
  | S n' =>
      msg_offset ← of_option (unpack_u32_le (slice tbl_data offset (offset + 4)));
      main_outcomes' ←
        main_slot msg_data outcome_index msg_offset main_outcomes;
      main_loop n' tbl_data msg_data (offset + 4) (outcome_index + 1)
        main_outcomes'
  end.

(** [max_outcomes = min(200, (len(tbl_data) - offset) // 4)] with
    [offset = 0x10]; [//] rounds down, as [Z.div] does. *)
Definition max_outcomes (tbl_data : list byte) : Z :=
  Z.min 200 ((len tbl_data - 0x10) / 4).

(** The dictionary [main_outcomes] that [parse_main_outcome_table] builds
    from the contents of [B3EHMSG.TBL] and [B3EHMSG.MSG]; a [range] of a
    negative bound is empty. *)
Definition main_outcomes (tbl_data msg_data : list byte)
  : res (gmap Z OutcomeEntry) :=
  main_loop (Z.to_nat (max_outcomes tbl_data)) tbl_data msg_data 0x10 0 ∅.

(** The files of [tables_dir] that the parser opens, by content. The
    methods only read them. *)
Record TableFiles : Type := mkTableFiles {
  B3EHNUM_TBL : list byte;
  B3EHNUM_MSG : list byte;
  B3EHMSG_TBL : list byte;
  B3EHMSG_MSG : list byte
}.

(** What a method of a parser instance can reach: the files on disk and
    the attribute [self.outcomes]. *)
Record ParserState : Type := mkParserState {
  files : TableFiles;
  outcomes : gmap string (gmap Z OutcomeEntry)
}.

(** [parse_numeric_table(self)]: ends with
    [self.outcomes['numeric'] = numeric_outcomes]. *)
Definition parse_numeric_table (st : ParserState) : res ParserState :=
  m ← numeric_outcomes (B3EHNUM_TBL (files st)) (B3EHNUM_MSG (files st));
  Ret {| files := files st; outcomes := <["numeric"%string := m]> (outcomes st) |}.

(** [parse_main_outcome_table(self)]: ends with
    [self.outcomes['main'] = main_outcomes]. *)
Definition parse_main_outcome_table (st : ParserState) : res ParserState :=
  m ← main_outcomes (B3EHMSG_TBL (files st)) (B3EHMSG_MSG (files st));
  Ret {| files := files st; outcomes := <["main"%string := m]> (outcomes st) |}.

(** [parse_tables(self)]: the state it leaves and the value it returns,
    [self.outcomes]. *)
Definition parse_tables (st : ParserState)
  : res (ParserState * gmap string (gmap Z OutcomeEntry)) :=
  st1 ← parse_numeric_table st;
  st2 ← parse_main_outcome_table st1;
  Ret (st2, outcomes st2).

(** A fresh instance: [self.outcomes = {}]. *)
Definition init (fs : TableFiles) : ParserState :=
  {| files := fs; outcomes := ∅ |}.

End APBAOutcomeParser.

(** ** [analyze_apba_structure.py] *)
Module APBAStructure.
Import Py.

(** [all(b in range(65, 91) or b == 32 for b in next_bytes)]: every byte
    is an upper-case letter or a space. *)
Definition name_like (next_bytes : list byte) : bool :=
  forallb (fun b => ((65 <=? byte_val b) && (byte_val b <? 91))
                    || (byte_val b =? 32))
          next_bytes.

(** The body of the loop of [find_record_boundaries] at index [i];
    [data[i]] raises when [i] is out of range. *)
Definition boundary_step (data : list byte) (i : Z) (potential_starts : list Z)
  : res (list Z) :=
  length_byte ← of_option (index data i);
  if (3 <=? length_byte) && (length_byte <=? 15)
  then
    let next_bytes := slice data (i + 1) (i + 6) in
    if name_like next_bytes
    then Ret (potential_starts ++ [i])
    else Ret potential_starts
  else Ret potential_starts.

(** [for i in <indices>: <body>] *)
Fixpoint boundary_loop (indices : list Z) (data : list byte)
    (potential_starts : list Z) : res (list Z) :=
  match indices with
  | [] => Ret potential_starts
  | i :: indices' =>
      potential_starts' ← boundary_step data i potential_starts;
      boundary_loop indices' data potential_starts'
  end.

(** The list [potential_starts] that [find_record_boundaries] builds
    from the bytes of the file: [for i in range(len(data) - 20)]; a
    [range] of a negative bound is empty. *)
Definition potential_starts (data : list byte) : res (list Z) :=
  boundary_loop (seqZ 0 (len data - 20)) data [].

(** [for i in range(len(potential_starts) - 1):
       dist = potential_starts[i+1] - potential_starts[i]
       distances.append(dist)] *)
Fixpoint distance_loop (indices : list Z) (potential_starts distances : list Z)
  : res (list Z) :=
  match indices with
  | [] => Ret distances
  | i :: indices' =>
      next ← of_option (item potential_starts (i + 1));
      this ← of_option (item potential_starts i);
      distance_loop indices' potential_starts (distances ++ [next - this])
  end.

(** The list [distances]; the source computes it when more than ten
    starts were found. *)
Definition distances (potential_starts : list Z) : res (list Z) :=
  distance_loop (seqZ 0 (len potential_starts - 1)) potential_starts [].

End APBAStructure.

(** ** The specification's wording, where it is compared with the code *)
Module Spec.
Import Py.

(** Splitting at every character that satisfies [is_sep]. With
    [is_sep c := (c = sep)] this is [Py.split sep]. *)
Fixpoint split_where (is_sep : ascii -> bool) (s : string) : list string :=
  match s with
  | EmptyString => [EmptyString]
  | String c s' =>
      if is_sep c then EmptyString :: split_where is_sep s'
      else match split_where is_sep s' with
           | w :: ws => String c w :: ws
           | [] => [String c EmptyString]
           end
  end.

(** The descriptor tokens as the specification words them: the trimmed
    text "split on whitespace into tokens, empty tokens discarded". *)
Definition descriptor_tokens_spec (pos_string : string) : list string :=
  filter (fun p => truthy p = true) (split_where isspace pos_string).

(** The text of a name field as the specification words it (section
    4.2): "decoded as printable-ASCII-only text"; "non-ASCII or control
    bytes are dropped from the decoded text". Only the bytes 32 to 126
    leave a character. *)
Fixpoint decode_printable (bs : list byte) : string :=
  match bs with
  | [] => EmptyString
  | b :: bs' =>
      if (32 <=? byte_val b) && (byte_val b <=? 126)
      then String (ascii_of_byte b) (decode_printable bs')
      else decode_printable bs'
  end.

(** The trimmed last name as the specification words it: the bytes
    [0x01 .. 0x0F] decoded as above, "trailing/leading whitespace
    trimmed". *)
Definition last_name_text_spec (record : list byte) : string :=
  strip (decode_printable (slice record 0x01 (0x01 + 15))).

End Spec.

(** ** Sample inputs *)
Module Samples.
Import Py.

Definition bytes_of (s : string) : list byte := list_byte_of_string s.

(** A record with the name fields of the specification's end-to-end
    example, [mid] at offsets [0x20 .. 0x85] and [descriptor] as the
    twelve bytes at [0x86 .. 0x91]. *)
Definition synthetic_record (mid descriptor : list byte) : list byte :=
  [Byte.x07] ++ bytes_of "LEIBOLD        "
  ++ [Byte.x04] ++ bytes_of "Nemo           "
  ++ mid ++ descriptor.

(** The descriptor of the end-to-end example, padded with spaces. *)
Definition leibold_descriptor : list byte := bytes_of "OF 3 L 07   ".

(** The same text padded with NUL bytes instead. *)
Definition leibold_descriptor_nul : list byte :=
  bytes_of "OF 3 L 07" ++ replicate 3 Byte.x00.

Definition leibold_record : list byte :=
  synthetic_record (replicate 102 Byte.x00) leibold_descriptor.

(** A descriptor with two tokens only. *)
Definition two_token_record : list byte :=
  synthetic_record (replicate 102 Byte.x00) (bytes_of "SS 5        ").

(** A descriptor whose two words are separated by a TAB (code 9). *)
Definition tab_descriptor : list byte :=
  [Byte.x41; Byte.x09; Byte.x42] ++ bytes_of "         ".

Definition tab_record : list byte :=
  synthetic_record (replicate 102 Byte.x00) tab_descriptor.

(** The text ["A<TAB>B"]. *)
Definition A_tab_B : string :=
  String "A" (String "009" (String "B" EmptyString)).

(** A message blob with ["Single"] and its terminator at offset [0x10]. *)
Definition single_blob : list byte :=
  replicate 16 Byte.x00 ++ bytes_of "Single" ++ [Byte.x00].

(** A message blob holding the one-character message ["7"]. *)
Definition seven_blob : list byte := bytes_of "7" ++ [Byte.x00].

(** A numeric table of exactly [0x24] bytes: the header and one pointer,
    [0x00000010]. *)
Definition numeric_table_one_slot : list byte :=
  replicate 0x20 Byte.x00 ++ [Byte.x10; Byte.x00; Byte.x00; Byte.x00].

(** A numeric table of [0x28] bytes: the header, the pointer [0] and a
    second slot holding the sentinel. *)
Definition numeric_table_two_slots : list byte :=
  replicate 0x20 Byte.x00 ++ [Byte.x00; Byte.x00; Byte.x00; Byte.x00]
  ++ [Byte.xff; Byte.xff; Byte.xff; Byte.xff].

(** A main table of exactly [0x14] bytes: the header and one pointer,
    [0x00000010]. *)
Definition main_table_one_slot : list byte :=
  replicate 0x10 Byte.x00 ++ [Byte.x10; Byte.x00; Byte.x00; Byte.x00].

(** A main table whose only pointer is the sentinel [0xFFFFFFFF]. *)
Definition main_table_sentinel : list byte :=
  replicate 0x10 Byte.x00 ++ [Byte.xff; Byte.xff; Byte.xff; Byte.xff].

(** A blob of [0xFFFFFFFF + 3] bytes: zero bytes up to offset
    [0xFFFFFFFF], where the text ["ABC"] ends the blob. *)
Definition huge_blob : list byte :=
  replicate (Z.to_nat 0xFFFFFFFF) Byte.x00 ++ bytes_of "ABC".


(** A record with six descriptor tokens. *)
Definition six_token_record : list byte :=
  synthetic_record (replicate 102 Byte.x00) (bytes_of "C 1 R 5 X Y ").

(** A record whose last-name length byte is zero: it is rejected. *)
Definition rejected_record : list byte := replicate 146 Byte.x00.

(** A record whose last-name length byte is 5 and whose last-name field
    holds fifteen NUL bytes. *)
Definition nul_name_record : list byte :=
  [Byte.x05] ++ replicate 15 Byte.x00
  ++ [Byte.x04] ++ bytes_of "Nemo           "
  ++ replicate 102 Byte.x00 ++ leibold_descriptor.

(** The text of fifteen NUL characters. *)
Definition fifteen_nuls : string :=
  string_of_list_ascii (replicate 15 "000"%char).

(** The text ["07"] followed by three NUL characters. *)
Definition card_07_nuls : string :=
  String "0" (String "7" (string_of_list_ascii (replicate 3 "000"%char))).

End Samples.

(** ** What the loops compute, stated without the loops

    Each definition of this module is related to the embedding by a lemma
    below; none of them replaces it. *)
Module Closed.
Import Py APBAPlayerParser APBAOutcomeParser.

(** The bytes before the first zero byte. *)
Fixpoint until_nul (bs : list byte) : list byte :=
  match bs with
  | [] => []
  | b :: bs' => if byte_val b =? 0 then [] else b :: until_nul bs'
  end.

(** The bytes [extract_message] may look at: at most [max_len] bytes from
    [offset], cut at the end of the blob. *)
Definition message_window (data : list byte) (offset max_len : Z) : list byte :=
  take (Z.to_nat max_len) (drop (Z.to_nat offset) data).

(** Decoding and cleaning of the scanned bytes, as [extract_message]
    does after its loop. *)
Definition clean_text (bs : list byte) : string :=
  strip (keep_chars keep_printable (decode_ascii_ignore bs)).

(** The indices [i] at which the loop of [extract_message] evaluates
    [data[i]], in order: [scan_end] with every read recorded. *)
Fixpoint scan_reads (fuel : nat) (data : list byte) (limit end_ : Z) : list Z :=
  if negb (end_ <? limit) then []
  else
    end_ ::
    match index data end_ with
    | None => []
    | Some b =>
        if b =? 0 then []
        else
          match fuel with
          | O => []
          | S fuel' => scan_reads fuel' data limit (end_ + 1)
          end
    end.

(** The pointer in slot [k] of a table whose header has [header] bytes. *)
Definition slot_value (tbl_data : list byte) (header k : Z) : option Z :=
  unpack_u32_le (slice tbl_data (header + 4 * k) (header + 4 * k + 4)).

(** When [parse_numeric_table] stores the entry [e] for a slot it visits. *)
Definition numeric_emits (tbl_data msg_data : list byte) (k : Z)
    (e : OutcomeEntry) : Prop :=
  exists value msg_text,
    slot_value tbl_data 0x20 k = Some value
    /\ value <> 0xFFFFFFFF
    /\ value < len msg_data
    /\ extract_message msg_data value DEFAULT_MAX_LEN = Ret msg_text
    /\ msg_text <> EmptyString
    /\ e = mkOutcomeEntry k value msg_text.

(** When [parse_main_outcome_table] stores the entry [e] for a slot it
    visits. *)
Definition main_emits (tbl_data msg_data : list byte) (k : Z)
    (e : OutcomeEntry) : Prop :=
  exists msg_offset msg_text,
    slot_value tbl_data 0x10 k = Some msg_offset
    /\ msg_offset < len msg_data
    /\ extract_message msg_data msg_offset 100 = Ret msg_text
    /\ 2 < Z.of_nat (String.length msg_text)
    /\ e = mkOutcomeEntry k msg_offset msg_text.

(** The number of records [analyze_structure] hands to the decoder: one
    for every multiple of 146 that leaves at least 150 bytes. *)
Definition records_scanned (data : list byte) : Z :=
  if len data <? 150 then 0 else (len data - 150) / 146 + 1.

(** The records [analyze_structure] appends to [self.players]. *)
Definition scanned_records (data : list byte) : list PlayerRecord :=
  omap (fun k => parse_player_record (slice data (146 * k) (146 * k + 200)))
       (seqZ 0 (records_scanned data)).

(** A byte that leaves nothing in a trimmed field when every byte of
    the field is like it: dropped by the decoding (value 128 or more) or
    white space for [strip] (codes 9 to 13 and 28 to 32). Every other
    byte, the control bytes 0 to 8 and 14 to 27 included, leaves a
    character. *)
Definition blank_byte (b : byte) : bool :=
  (128 <=? byte_val b)
  || ((9 <=? byte_val b) && (byte_val b <=? 13))
  || ((28 <=? byte_val b) && (byte_val b <=? 32)).

End Closed.

(** * Facts about the Python fragment *)

Section py_sequences.
Context {A : Type}.
Implicit Types (l : list A) (i a b n : Z).

Lemma len_nonneg l : 0 <= Py.len l.
Proof. unfold Py.len. lia. Qed.

Lemma len_app l k : Py.len (l ++ k) = Py.len l + Py.len k.
Proof. unfold Py.len. rewrite length_app. lia. Qed.

(** A non-negative index is a plain lookup. *)
Lemma item_nonneg l i : 0 <= i -> Py.item l i = l !! Z.to_nat i.
Proof.
  intros Hi. unfold Py.item.
  destruct (Z.ltb_spec i 0) as [?|_]; [lia|].
  destruct (Z.leb_spec 0 i) as [_|?]; [|lia].
  destruct (Z.ltb_spec i (Py.len l)) as [?|Hge]; simpl; [done|].
  symmetry. apply lookup_ge_None. unfold Py.len in Hge. lia.
Qed.

Lemma item_is_Some l i : 0 <= i < Py.len l -> is_Some (Py.item l i).
Proof.
  intros [H0 H1]. rewrite item_nonneg by done.
  apply lookup_lt_is_Some. unfold Py.len in H1. lia.
Qed.

(** A slice with non-negative bounds is [take] after [drop]. *)
Lemma slice_nonneg l a b :
  0 <= a -> 0 <= b ->
  Py.slice l a b = take (Z.to_nat (b - a)) (drop (Z.to_nat a) l).
Proof.
  intros Ha Hb. unfold Py.slice, Py.clamp.
  destruct (Z.ltb_spec a 0) as [?|_]; [lia|].
  destruct (Z.ltb_spec b 0) as [?|_]; [lia|].
  pose proof (len_nonneg l) as Hn. unfold Py.len in *.
  destruct (Z.le_gt_cases a (Z.of_nat (length l))) as [Hal|Hal].
  - rewrite (Z.min_l a) by lia.
    destruct (Z.le_gt_cases b (Z.of_nat (length l))) as [Hbl|Hbl].
    + by rewrite (Z.min_l b) by lia.
    + rewrite (Z.min_r b) by lia.
      rewrite !take_ge; [done | rewrite length_drop; lia ..].
  - rewrite (Z.min_r a) by lia.
    rewrite (drop_ge l (Z.to_nat a)) by lia.
    rewrite (drop_ge l (Z.to_nat _)) by lia.
    by rewrite !take_nil.
Qed.

Lemma length_slice_le l a b : 0 <= a -> 0 <= b -> Py.len (Py.slice l a b) <= Z.max 0 (b - a).
Proof.
  intros Ha Hb. rewrite slice_nonneg by done. unfold Py.len.
  rewrite length_take. lia.
Qed.

(** Reads below [n] do not see what lies at [n] or beyond. *)
Lemma item_take l n i :
  0 <= i < n -> Py.item (take (Z.to_nat n) l) i = Py.item l i.
Proof.
  intros [H0 H1]. rewrite !item_nonneg by done.
  apply lookup_take_lt. lia.
Qed.

Lemma slice_take l n a b :
  0 <= a -> 0 <= b -> b <= n ->
  Py.slice (take (Z.to_nat n) l) a b = Py.slice l a b.
Proof.
  intros Ha Hb Hbn. rewrite !slice_nonneg by done.
  destruct (Z.le_gt_cases b a) as [Hba|Hab].
  - replace (Z.to_nat (b - a)) with 0%nat by lia. done.
  - replace (Z.to_nat n) with (Z.to_nat a + Z.to_nat (n - a))%nat by lia.
    rewrite <- take_drop_commute, take_take. f_equal. lia.
Qed.

End py_sequences.

(** * The player-card decoder *)

Section player_decoder.
Import Py APBAPlayerParser.
Implicit Types (record : list byte) (player : PlayerRecord).

Lemma index_Some record i :
  0 <= i < len record -> exists v, index record i = Some v /\ 0 <= v <= 255.
Proof.
  intros H. destruct (item_is_Some record i H) as [b Hb].
  exists (byte_val b). unfold index. rewrite Hb. split; [done|].
  unfold byte_val. pose proof (Byte.to_N_bounded b). lia.
Qed.

Lemma index_take record n i :
  0 <= i < n -> index (take (Z.to_nat n) record) i = index record i.
Proof. intros H. unfold index. by rewrite item_take. Qed.

(** [parts[k] if len(parts) >= k + 1 else d] never raises and is the
    [k]-th element when there is one, [d] otherwise. *)
Lemma guarded_item_nth (parts : list string) (c k : Z) (d : string) :
  0 <= k -> c = k + 1 ->
  (if c <=? len parts then item parts k else Some d)
  = Some (nth (Z.to_nat k) parts d).
Proof.
  intros Hk ->. unfold len.
  destruct (Z.leb_spec (k + 1) (Z.of_nat (length parts))) as [Hle|Hgt].
  - rewrite item_nonneg by done.
    destruct (lookup_lt_is_Some_2 parts (Z.to_nat k)) as [x Hx]; [lia|].
    rewrite Hx. f_equal. symmetry. by apply nth_lookup_Some with (d := d).
  - f_equal. symmetry. apply nth_overflow. lia.
Qed.

(** What an accepted record tells about its input. *)
Lemma parse_player_record_Some_inv record player :
  parse_player_record record = Some player ->
  let parts := descriptor_parts (descriptor_string record) in
  RECORD_SIZE <= len record
  /\ (exists n, index record 0x00 = Some n /\ 0 < n < 20)
  /\ last_name player = last_name_text record
  /\ last_name_text record <> EmptyString
  /\ position player = nth 0 parts "UNK"%string
  /\ grade player = nth 1 parts "0"%string
  /\ bats player = nth 2 parts "R"%string
  /\ card_number player = nth 3 parts "0"%string
  /\ throws player = bats player
  /\ position_string player = descriptor_string record.
Proof.
  unfold parse_player_record.
  destruct (Z.ltb_spec (len record) RECORD_SIZE) as [|Hlen]; [done|].
  unfold parse_player_record_body.
  rewrite (guarded_item_nth _ 1 0 "UNK"), (guarded_item_nth _ 2 1 "0"),
    (guarded_item_nth _ 3 2 "R"), (guarded_item_nth _ 4 3 "0") by lia.
  intros H.
  destruct (index record 0) as [n|] eqn:E0; [|done].
  cbn [mbind option_bind] in H.
  destruct (Z.ltb_spec 0 n), (Z.ltb_spec n 20); try done.
  cbn [negb andb] in H.
  destruct (index record 16) as [m|]; [|done].
  cbn [mbind option_bind] in H.
  destruct (last_name_text record) as [|c s] eqn:El; [done|].
  cbn [negb truthy] in H.
  repeat match type of H with
         | context [index record ?c] =>
             destruct (index record c); [|done]; cbn [mbind option_bind] in H
         end.
  destruct (mapM _ _); [|done].
  cbn [mbind option_bind] in H.
  injection H as <-. cbn.
  repeat split; try done. exists n. split; [done|lia].
Qed.

(** Every structurally valid record is accepted: no read of the [try]
    block fails on a record of at least 146 bytes. *)
Lemma parse_player_record_is_Some record n :
  RECORD_SIZE <= len record ->
  index record 0x00 = Some n -> 0 < n < 20 ->
  last_name_text record <> EmptyString ->
  is_Some (parse_player_record record).
Proof.
  unfold RECORD_SIZE. intros Hlen E0 Hn Hname.
  unfold parse_player_record, RECORD_SIZE.
  destruct (Z.ltb_spec (len record) 146) as [|_]; [lia|].
  unfold parse_player_record_body.
  rewrite (guarded_item_nth _ 1 0 "UNK"), (guarded_item_nth _ 2 1 "0"),
    (guarded_item_nth _ 3 2 "R"), (guarded_item_nth _ 4 3 "0") by lia.
  rewrite E0. cbn [mbind option_bind].
  destruct (Z.ltb_spec 0 n), (Z.ltb_spec n 20); try lia.
  cbn [negb andb].
  destruct (index_Some record 16) as (m & -> & _); [lia|].
  cbn [mbind option_bind].
  destruct (last_name_text record) as [|c s]; [done|].
  cbn [negb truthy].
  destruct (index_Some record 0x20) as (? & -> & _); [lia|].
  destruct (index_Some record 0x21) as (? & -> & _); [lia|].
  destruct (index_Some record 0x22) as (? & -> & _); [lia|].
  destruct (index_Some record 0x23) as (? & -> & _); [lia|].
  destruct (index_Some record 0x24) as (? & -> & _); [lia|].
  destruct (index_Some record 0x25) as (? & -> & _); [lia|].
  cbn [mbind option_bind].
  assert (is_Some (mapM (index record) (seqZ 0x30 (0x80 - 0x30)))) as [chart ->].
  { apply mapM_is_Some, Forall_forall. intros i Hi.
    apply elem_of_seqZ in Hi.
    destruct (index_Some record i) as (v & Hv & _); [lia|].
    unfold compose. by rewrite Hv. }
  cbn [mbind option_bind]. eauto.
Qed.

(** The decoder reads nothing at offset 146 or beyond. *)
Lemma parse_player_record_take record :
  RECORD_SIZE <= len record ->
  parse_player_record (take (Z.to_nat RECORD_SIZE) record)
  = parse_player_record record.
Proof.
  unfold RECORD_SIZE. intros Hlen.
  assert (len (take (Z.to_nat 146) record) = 146) as Hlt.
  { unfold len in *. rewrite length_take. lia. }
  unfold parse_player_record, RECORD_SIZE. rewrite Hlt.
  destruct (Z.ltb_spec 146 146) as [|_]; [lia|].
  destruct (Z.ltb_spec (len record) 146) as [|_]; [lia|].
  unfold parse_player_record_body, last_name_text, first_name_text,
    descriptor_string.
  rewrite !index_take by lia.
  rewrite !slice_take by lia.
  assert (mapM (index (take (Z.to_nat 146) record)) (seqZ 0x30 (0x80 - 0x30))
          = mapM (index record) (seqZ 0x30 (0x80 - 0x30))) as ->; [|done].
  apply Forall_mapM_ext, Forall_forall. intros i Hi.
  apply elem_of_seqZ in Hi. apply index_take. lia.
Qed.

End player_decoder.

Section player_claims.
Import Py APBAPlayerParser Spec Samples.
Implicit Types (record : list byte) (player : PlayerRecord).

(** When [parse_player_record] returns no record, in terms of the text
    the code itself decodes for the last name. *)
Lemma parse_player_record_None_iff record :
  (parse_player_record record = None <->
     len record < 146
     \/ (exists n, index record 0x00 = Some n /\ ~ (1 <= n <= 19))
     \/ last_name_text record = EmptyString)
  /\ (146 <= len record ->
      (exists n, index record 0x00 = Some n /\ 1 <= n <= 19) ->
      last_name_text record <> EmptyString ->
      exists player, parse_player_record record = Some player
                     /\ last_name player = last_name_text record).
Proof.
  split.
  - split.
    + intros Hnone.
      destruct (Z.lt_ge_cases (len record) 146) as [|Hlen]; [by left|].
      right.
      destruct (index_Some record 0) as (n & E0 & _); [lia|].
      destruct (decide (1 <= n <= 19)) as [Hn|Hn]; [|left; eauto].
      right.
      destruct (decide (last_name_text record = EmptyString)) as [|Hname];
        [done|].
      destruct (parse_player_record_is_Some record n) as [p Hp];
        [done | done | lia | done | congruence].
    + intros Hrej.
      destruct (parse_player_record record) as [p|] eqn:Hp; [|done].
      apply parse_player_record_Some_inv in Hp.
      destruct Hp as (Hlen & (n & E0 & Hn) & _ & Hname & _).
      unfold RECORD_SIZE in Hlen.
      destruct Hrej as [?|[(n' & E0' & Hn')|?]]; [lia | | done].
      rewrite E0 in E0'. injection E0' as <-. lia.
  - intros Hlen (n & E0 & Hn) Hname.
    destruct (parse_player_record_is_Some record n) as [p Hp];
      [done | done | lia | done |].
    exists p. split; [done|].
    by apply parse_player_record_Some_inv in Hp as (_ & _ & ? & _).
Qed.

(** C6, amended. The record of the end-to-end example (length byte 7
    and ["LEIBOLD"], length byte 4 and ["Nemo"], both name fields padded
    with spaces, the descriptor ["OF 3 L 07"] followed by three spaces
    that fill its twelve bytes, any bytes at offsets [0x20 .. 0x85])
    decodes to a record with the stated fields. The padding of the
    descriptor matters: zero bytes there would stay in [card_number]. *)
Theorem C6_end_to_end_leibold (mid : list byte) :
  length mid = 102%nat ->
  exists player,
    parse_player_record (synthetic_record mid leibold_descriptor) = Some player
    /\ last_name player = "LEIBOLD"%string
    /\ first_name player = "Nemo"%string
    /\ position player = "OF"%string
    /\ grade player = "3"%string
    /\ bats player = "L"%string
    /\ card_number player = "07"%string
    /\ throws player = "L"%string.
Proof.
  intros Hmid.
  do 102 (destruct mid as [|? mid]; [discriminate Hmid|]).
  destruct mid; [|discriminate Hmid].
  eexists. split; [vm_compute; reflexivity|].
  cbn. by repeat split.
Qed.

(** C6, amended, with zero bytes at offsets [0x20 .. 0x85]. *)
Lemma C6_leibold_record_decodes :
  exists player,
    parse_player_record leibold_record = Some player
    /\ last_name player = "LEIBOLD"%string
    /\ first_name player = "Nemo"%string
    /\ position player = "OF"%string
    /\ grade player = "3"%string
    /\ bats player = "L"%string
    /\ card_number player = "07"%string
    /\ throws player = "L"%string.
Proof.
  apply (C6_end_to_end_leibold (replicate 102 Byte.x00)).
  reflexivity.
Defined.
End player_claims.

Section player_claims_tokens.
Import Py APBAPlayerParser Spec Samples.
Implicit Types (record : list byte) (player : PlayerRecord).

(** The code cuts the descriptor at the space character only: no token
    is empty and no token holds a space. *)
Lemma split_no_sep (sep : ascii) (s : string) :
  Forall (fun w => forall x, In x (list_ascii_of_string w) -> x <> sep)
         (split sep s).
Proof.
  induction s as [|c s IH]; simpl.
  - constructor; [|constructor]. intros x [].
  - destruct (Ascii.eqb_spec c sep) as [->|Hne].
    + constructor; [|done]. intros x [].
    + destruct (split sep s) as [|w ws].
      * constructor; [|constructor]. intros x [<-|[]]. done.
      * inversion IH as [|? ? Hw Hws]; subst.
        constructor; [|done]. intros x [<-|Hx]; [done|]. by apply Hw.
Qed.

Lemma descriptor_parts_tokens (pos_string : string) :
  Forall (fun w => w <> EmptyString
                   /\ forall x, In x (list_ascii_of_string w) -> x <> " "%char)
         (descriptor_parts pos_string).
Proof.
  unfold descriptor_parts. apply Forall_forall. intros w Hw.
  apply list_elem_of_filter in Hw as [Ht Hw]. split.
  - by destruct w.
  - pose proof (split_no_sep " " pos_string) as H.
    rewrite Forall_forall in H. by apply H.
Qed.

(** C7 as stated fails: with the descriptor ["A<TAB>B"] the whitespace
    tokens are ["A"] and ["B"], fewer than four, yet the decoder assigns
    the whole text ["A<TAB>B"] to [position] and the default ["0"] to
    [grade]. *)
Lemma C7_tab_is_not_a_separator :
  let toks := descriptor_tokens_spec (descriptor_string tab_record) in
  toks = ["A"%string; "B"%string]
  /\ (length toks < 4)%nat
  /\ exists player,
       parse_player_record tab_record = Some player
       /\ position player = A_tab_B
       /\ grade player = "0"%string
       /\ position player <> nth 0 toks "UNK"%string
       /\ grade player <> nth 1 toks "0"%string.
Proof.
  cbv zeta. split; [by vm_compute|]. split; [vm_compute; lia|].
  eexists. split; [vm_compute; reflexivity|].
  cbn [position grade]. by vm_compute.
Qed.

(** C7, amended. For every accepted record whose descriptor region
    (bytes [0x86 .. 0x91], decoded, trimmed, and cut at the space
    character, empty pieces discarded) yields fewer than four tokens,
    each missing field takes its default (["UNK"], ["0"], ["R"], ["0"])
    and each present token is assigned by position, unchanged; a token
    is any non-empty run of characters other than the space, so a TAB or
    a line feed inside the region stays inside its token. *)
Theorem C7_positional_tokens_cut_at_spaces record player :
  parse_player_record record = Some player ->
  let parts := descriptor_parts (descriptor_string record) in
  (length parts < 4)%nat ->
  position player = nth 0 parts "UNK"%string
  /\ grade player = nth 1 parts "0"%string
  /\ bats player = nth 2 parts "R"%string
  /\ card_number player = "0"%string
  /\ Forall (fun w => w <> EmptyString
                      /\ forall x, In x (list_ascii_of_string w) -> x <> " "%char)
            parts.
Proof.
  intros Hp parts Hlen.
  apply parse_player_record_Some_inv in Hp.
  destruct Hp as (_ & _ & _ & _ & Hpos & Hgrade & Hbats & Hcard & _).
  fold parts in Hpos, Hgrade, Hbats, Hcard.
  repeat split; try done.
  - rewrite Hcard. apply nth_overflow. lia.
  - apply descriptor_parts_tokens.
Qed.

(** C7, amended, at a record whose descriptor is ["SS 5"]. *)
Lemma C7_two_token_record_defaults :
  exists player,
    parse_player_record two_token_record = Some player
    /\ position player = "SS"%string
    /\ grade player = "5"%string
    /\ bats player = "R"%string
    /\ card_number player = "0"%string.
Proof.
  destruct (parse_player_record two_token_record) as [p|] eqn:Hp;
    [|vm_compute in Hp; discriminate Hp].
  exists p. split; [reflexivity|].
  pose proof (C7_positional_tokens_cut_at_spaces two_token_record p Hp) as H.
  cbv zeta in H.
  assert (descriptor_parts (descriptor_string two_token_record)
          = ["SS"%string; "5"%string]) as E by (by vm_compute).
  rewrite E in H. destruct H as (H1 & H2 & H3 & H4 & _); [simpl; lia|].
  by repeat split.
Defined.

(** C10. Two slices of at least 146 bytes that agree on their first 146
    bytes decode alike: to the same record, or both to none. *)
Theorem C10_only_first_146_bytes_matter (r1 r2 : list byte) :
  146 <= len r1 -> 146 <= len r2 ->
  take 146 r1 = take 146 r2 ->
  parse_player_record r1 = parse_player_record r2.
Proof.
  intros H1 H2 Heq.
  rewrite <- (parse_player_record_take r1), <- (parse_player_record_take r2)
    by done.
  change (Z.to_nat RECORD_SIZE) with 146%nat. by rewrite Heq.
Qed.

(** C10, at the example record followed by different trailing bytes. *)
Lemma C10_trailing_bytes_ignored :
  parse_player_record (leibold_record ++ [Byte.x01])
  = parse_player_record (leibold_record ++ bytes_of "ZZZZZZZZZZZZZZZZZZZZ").
Proof.
  apply C10_only_first_146_bytes_matter.
  - vm_compute. discriminate.
  - vm_compute. discriminate.
  - reflexivity.
Defined.

(** The scanner hands the decoder up to 200 bytes; the bytes beyond the
    record's 146 play no part. *)
Lemma parse_player_record_scanner_slice (data : list byte) (offset : Z) :
  0 <= offset -> offset + 146 <= len data ->
  parse_player_record (slice data offset (offset + 200))
  = parse_player_record (slice data offset (offset + 146)).
Proof.
  intros H0 H1.
  rewrite <- (parse_player_record_take (slice data offset (offset + 200))).
  - f_equal. rewrite !slice_nonneg by lia. unfold RECORD_SIZE.
    rewrite take_take. f_equal. lia.
  - rewrite slice_nonneg by lia. unfold RECORD_SIZE, len in *.
    rewrite length_take, length_drop. lia.
Qed.
End player_claims_tokens.

(** * The record scanner *)

Section scanner.
Import Py APBAPlayerParser Closed Samples.
Implicit Types (data : list byte) (players : list PlayerRecord).

Lemma records_scanned_bounds data :
0 <= records_scanned data <= len data.
Proof.
unfold records_scanned. pose proof (len_nonneg data).
destruct (Z.ltb_spec (len data) 150); [lia|].
Z.div_mod_to_equations. lia.
Qed.

(** The slot [k] is visited exactly when [146 * k + 150 <= len data]. *)
Lemma records_scanned_spec data k :
0 <= k -> (k < records_scanned data <-> 146 * k + 150 <= len data).
Proof.
intros Hk. unfold records_scanned.
destruct (Z.ltb_spec (len data) 150); [lia|].
Z.div_mod_to_equations. lia.
Qed.

Lemma analyze_loop_closed fuel data k players :
0 <= k -> records_scanned data - k <= Z.of_nat fuel ->
analyze_loop fuel data (146 * k) players
= Ret (players
       ++ omap (fun j => parse_player_record
                           (slice data (146 * j) (146 * j + 200)))
               (seqZ k (records_scanned data - k))).
Proof.
revert k players.
induction fuel as [|fuel IH]; intros k players Hk Hfuel;
  pose proof (records_scanned_spec data k Hk) as Hspec;
  pose proof (len_nonneg data) as Hlen; cbn [analyze_loop].
- destruct (Z.ltb_spec (146 * k) (len data)); cbn [negb];
    [destruct (Z.ltb_spec (len data) (146 * k + 150)); [|lia]|];
    rewrite seqZ_nil by lia; by rewrite app_nil_r.
- destruct (Z.ltb_spec (146 * k) (len data)); cbn [negb];
    [destruct (Z.ltb_spec (len data) (146 * k + 150))|].
  + rewrite seqZ_nil by lia. by rewrite app_nil_r.
  + replace (146 * k + 146) with (146 * (k + 1)) by lia.
    rewrite IH by lia.
    rewrite (seqZ_cons k) by lia. cbn [omap list_omap].
    replace (Z.succ k) with (k + 1) by lia.
    replace (Z.pred (records_scanned data - k))
      with (records_scanned data - (k + 1)) by lia.
    destruct (parse_player_record _); [|done].
    by rewrite <- app_assoc.
  + rewrite seqZ_nil by lia. by rewrite app_nil_r.
Qed.

(** [analyze_structure] always terminates normally: it appends the
  decoded records to [self.players], whatever the list held before. *)
Lemma analyze_structure_closed data players :
analyze_structure data players = Ret (players ++ scanned_records data).
Proof.
unfold analyze_structure, scanned_records.
pose proof (records_scanned_bounds data). unfold len in *.
change 0 with (146 * 0) at 1.
rewrite analyze_loop_closed by lia.
by rewrite Z.sub_0_r.
Qed.

Lemma parse_file_closed data : parse_file data = Ret (scanned_records data).
Proof. unfold parse_file. by rewrite analyze_structure_closed. Qed.

(** A buffer shorter than one stride (indeed, shorter than 150 bytes)
  yields no record. *)
Lemma parse_file_short data : len data < 150 -> parse_file data = Ret [].
Proof.
intros H. rewrite parse_file_closed. unfold scanned_records, records_scanned.
destruct (Z.ltb_spec (len data) 150); [done|lia].
Qed.

(** C2, where the code departs from it. A buffer that holds exactly one
  valid 146-byte record is not shorter than one record, and the decoder
  accepts it, yet the scanner stops before its first step: its guard
  asks for 150 remaining bytes. Four more bytes make the same record
  appear. *)
Theorem C2_scanner_needs_150_bytes :
len leibold_record = 146
/\ is_Some (parse_player_record leibold_record)
/\ parse_file leibold_record = Ret []
/\ (exists player,
      parse_player_record leibold_record = Some player
      /\ parse_file (leibold_record ++ replicate 4 Byte.x00) = Ret [player]).
Proof.
split; [reflexivity|]. split; [by vm_compute; eexists|].
split; [by apply parse_file_short|].
eexists. split; vm_compute; reflexivity.
Qed.

End scanner.

(** * The message resolver *)

Section message_resolver.
Import Py APBAOutcomeParser Closed Samples.
Implicit Types (data bs : list byte) (offset max_len limit : Z).

Lemma until_nul_prefix bs : take (length (until_nul bs)) bs = until_nul bs.
Proof.
  induction bs as [|b bs IH]; [done|]. simpl.
  destruct (byte_val b =? 0); [done|]. simpl. by rewrite IH.
Qed.

Lemma until_nul_length bs : (length (until_nul bs) <= length bs)%nat.
Proof.
  induction bs as [|b bs IH]; [done|]. simpl.
  destruct (byte_val b =? 0); simpl; lia.
Qed.

Lemma until_nul_nonzero bs : Forall (fun b => byte_val b <> 0) (until_nul bs).
Proof.
  induction bs as [|b bs IH]; [constructor|]. simpl.
  destruct (Z.eqb_spec (byte_val b) 0); [constructor|]. by constructor.
Qed.

(** Where the scan stops inside [bs]: at its end or in front of a zero. *)
Lemma until_nul_stop bs :
  length (until_nul bs) = length bs
  \/ exists b, bs !! length (until_nul bs) = Some b /\ byte_val b = 0.
Proof.
  induction bs as [|b bs IH]; [by left|]. simpl.
  destruct (Z.eqb_spec (byte_val b) 0) as [Hz|Hnz].
  - right. exists b. by split.
  - simpl. destruct IH as [->|IH]; [by left | by right].
Qed.

(** The loop of [extract_message] returns, and stops after the bytes
    before the first zero of the window. *)
Lemma scan_end_closed fuel data limit end_ :
  0 <= end_ -> limit <= len data -> limit - end_ <= Z.of_nat fuel ->
  scan_end fuel data limit end_
  = Ret (end_ + len (until_nul (take (Z.to_nat (limit - end_))
                                     (drop (Z.to_nat end_) data)))).
Proof.
  revert end_. unfold len.
  induction fuel as [|fuel IH]; intros end_ H0 Hlim Hfuel; cbn [scan_end];
    (destruct (Z.ltb_spec end_ limit) as [Hlt|Hge]; cbn [negb];
     [|replace (Z.to_nat (limit - end_)) with 0%nat by lia;
       rewrite take_0; cbn; f_equal; lia]).
  - lia.
  - destruct (lookup_lt_is_Some_2 data (Z.to_nat end_)) as [b Hb]; [lia|].
    unfold index. rewrite item_nonneg, Hb by done.
    cbn [fmap option_fmap option_map of_option mbind res_bind].
    rewrite (drop_S _ b _ Hb).
    replace (Z.to_nat (limit - end_)) with (S (Z.to_nat (limit - (end_ + 1))))
      by lia.
    cbn [take until_nul].
    destruct (Z.eqb_spec (byte_val b) 0) as [Hz|Hnz].
    + cbn. f_equal. lia.
    + rewrite IH by lia.
      replace (S (Z.to_nat end_)) with (Z.to_nat (end_ + 1)) by lia.
      f_equal. cbn [length]. lia.
Qed.

(** Every index the loop reads lies in the window [offset, limit). *)
Lemma scan_reads_in_window fuel data limit end_ :
  Forall (fun i => end_ <= i < limit) (scan_reads fuel data limit end_).
Proof.
  revert end_.
  induction fuel as [|fuel IH]; intros end_; cbn [scan_reads];
    (destruct (Z.ltb_spec end_ limit) as [Hlt|Hge]; cbn [negb];
     [|constructor]); (constructor; [lia|]);
    (destruct (index data end_) as [b|]; [|constructor]);
    (destruct (b =? 0); [constructor|]).
  - constructor.
  - eapply Forall_impl; [apply IH|]. intros i Hi. simpl in Hi. lia.
Qed.

(** The window of a message, and the closed form of [extract_message]
    for an offset inside the blob. *)
Lemma extract_message_scan data offset max_len :
  0 <= offset < len data ->
  let limit := Z.min (offset + max_len) (len data) in
  let scanned := until_nul (message_window data offset max_len) in
  scan_end (Z.to_nat max_len) data limit offset = Ret (offset + len scanned)
  /\ slice data offset (offset + len scanned) = scanned.
Proof.
  intros [H0 H1] limit scanned.
  assert (take (Z.to_nat (limit - offset)) (drop (Z.to_nat offset) data)
          = message_window data offset max_len) as Hwin.
  { unfold message_window, limit, len in *.
    destruct (Z.le_gt_cases (offset + max_len) (Z.of_nat (length data))).
    - rewrite Z.min_l by lia. f_equal. lia.
    - rewrite Z.min_r by lia.
      rewrite !take_ge; [done | rewrite length_drop; lia ..]. }
  split.
  - rewrite scan_end_closed; [by rewrite Hwin | lia | unfold limit; lia
                             | unfold limit; lia].
  - rewrite slice_nonneg by (pose proof (len_nonneg scanned); lia).
    replace (offset + len scanned - offset) with (len scanned) by lia.
    unfold len. rewrite Nat2Z.id.
    subst scanned. unfold message_window.
    rewrite <- (until_nul_prefix (take _ _)) at 2.
    rewrite take_take. f_equal.
    pose proof (until_nul_length
                  (take (Z.to_nat max_len) (drop (Z.to_nat offset) data))) as Hl.
    rewrite length_take in Hl. lia.
Qed.

Lemma extract_message_closed data offset max_len :
  0 <= offset < len data ->
  extract_message data offset max_len
  = Ret (clean_text (until_nul (message_window data offset max_len))).
Proof.
  intros H. unfold extract_message.
  destruct (Z.leb_spec (len data) offset); [lia|].
  destruct (extract_message_scan data offset max_len H) as [-> Hslice].
  cbn [mbind res_bind]. by rewrite Hslice.
Qed.

Lemma extract_message_past_end data offset max_len :
  len data <= offset -> extract_message data offset max_len = Ret EmptyString.
Proof.
  intros H. unfold extract_message.
  by destruct (Z.leb_spec (len data) offset); [|lia].
Qed.

(** For a non-negative offset the resolver returns a text: it neither
    raises nor runs out of its budget. *)
Lemma extract_message_returns data offset max_len :
  0 <= offset -> exists text, extract_message data offset max_len = Ret text.
Proof.
  intros H0. destruct (Z.le_gt_cases (len data) offset).
  - rewrite extract_message_past_end by done. eauto.
  - rewrite extract_message_closed by lia. eauto.
Qed.

End message_resolver.

Section message_resolver_claim.
Import Py APBAOutcomeParser Closed Samples.
Implicit Types (data : list byte) (offset max_len : Z).

(** C5. For an offset at or past the end of the blob the resolver
    returns the empty text. For an offset inside the blob its loop
    returns the index [end_] that follows the bytes before the first zero
    of the window (the [max_len] bytes from [offset], cut at the end of
    the blob): every index it reads lies in
    [offset, min(offset + max_len, len(blob))), it stops at that bound or
    in front of a zero byte, whichever comes first, and the text is
    decoded from the bytes [offset, end_) alone. *)
Theorem C5_extract_message_stays_in_window data offset max_len :
  0 <= offset ->
  (len data <= offset -> extract_message data offset max_len = Ret EmptyString)
  /\ (offset < len data ->
      let limit := Z.min (offset + max_len) (len data) in
      let scanned := until_nul (message_window data offset max_len) in
      let end_ := offset + len scanned in
      scan_end (Z.to_nat max_len) data limit offset = Ret end_
      /\ Forall (fun i => offset <= i < limit)
                (scan_reads (Z.to_nat max_len) data limit offset)
      /\ offset <= end_ <= Z.max offset limit
      /\ (end_ = Z.max offset limit \/ index data end_ = Some 0)
      /\ Forall (fun b => byte_val b <> 0) scanned
      /\ slice data offset end_ = scanned
      /\ extract_message data offset max_len = Ret (clean_text scanned)).
Proof.
  intros H0. split; [apply extract_message_past_end|].
  intros H1 limit scanned end_.
  destruct (extract_message_scan data offset max_len) as [Hscan Hslice];
    [lia|].
  pose proof (until_nul_length (message_window data offset max_len)) as Hlen.
  pose proof (until_nul_stop (message_window data offset max_len)) as Hstop.
  fold scanned in Hlen, Hstop.
  assert (length (message_window data offset max_len)
          = Z.to_nat (Z.max offset limit - offset)) as Hwin.
  { unfold message_window, limit, len in *.
    rewrite length_take, length_drop. lia. }
  repeat split.
  - exact Hscan.
  - apply scan_reads_in_window.
  - unfold end_, len. lia.
  - unfold end_, len. lia.
  - destruct Hstop as [Hall|(b & Hb & Hz)].
    + left. unfold end_, len. lia.
    + right. unfold index, end_.
      rewrite item_nonneg by (unfold len; lia).
      unfold message_window in Hb.
      apply lookup_take_Some in Hb as [Hb _].
      rewrite lookup_drop in Hb.
      replace (Z.to_nat (offset + len scanned))
        with (Z.to_nat offset + length scanned)%nat by (unfold len; lia).
      rewrite Hb. cbn. by rewrite Hz.
  - apply until_nul_nonzero.
  - exact Hslice.
  - apply extract_message_closed. lia.
Qed.

(** C5, at the blob of the specification's example: from offset 16 the
    scan stops in front of the terminator, at index 22. *)
Lemma C5_single_blob_resolves :
  scan_end 200 single_blob (Z.min (16 + 200) (len single_blob)) 16 = Ret 22
  /\ extract_message single_blob 16 200 = Ret "Single"%string.
Proof.
  destruct (C5_extract_message_stays_in_window single_blob 16 200) as [_ H];
    [lia|].
  destruct H as (Hscan & _ & _ & _ & _ & _ & Hmsg); [by vm_compute|].
  split.
  - etransitivity; [exact Hscan|]. by vm_compute.
  - etransitivity; [exact Hmsg|]. by vm_compute.
Defined.

End message_resolver_claim.

(** * The outcome tables *)

Section outcome_tables.
Import Py APBAOutcomeParser Closed Samples.
Implicit Types (tbl_data msg_data : list byte) (acc : gmap Z OutcomeEntry).

(** A slot that lies inside the table holds an unsigned 32-bit value. *)
Lemma slot_value_Some tbl_data header k :
  0 <= header + 4 * k -> header + 4 * k + 4 <= len tbl_data ->
  exists value, slot_value tbl_data header k = Some value
                /\ 0 <= value <= 0xFFFFFFFF.
Proof.
  intros H0 H1. unfold slot_value.
  rewrite slice_nonneg by lia.
  replace (Z.to_nat (header + 4 * k + 4 - (header + 4 * k))) with 4%nat by lia.
  set (d := drop _ _).
  assert (4 <= length d)%nat as Hd.
  { subst d. rewrite length_drop. unfold len in H1. lia. }
  destruct d as [|b0 [|b1 [|b2 [|b3 d]]]]; simpl in Hd; try lia.
  cbn [take unpack_u32_le]. eexists. split; [done|].
  rewrite !Z.shiftl_mul_pow2 by lia.
  unfold byte_val.
  pose proof (Byte.to_N_bounded b0). pose proof (Byte.to_N_bounded b1).
  pose proof (Byte.to_N_bounded b2). pose proof (Byte.to_N_bounded b3).
  lia.
Qed.

(** One step of a table loop keeps the description of the dictionary:
    the keys below [i] are the slots that emitted. *)
Lemma emitted_step (P : Z -> OutcomeEntry -> Prop) acc i
    (o : option OutcomeEntry) :
  0 <= i ->
  (forall k e, acc !! k = Some e <-> 0 <= k < i /\ P k e) ->
  (forall e, o = Some e <-> P i e) ->
  forall k e,
    (match o with Some e' => <[i := e']> acc | None => acc end) !! k = Some e
    <-> 0 <= k < i + 1 /\ P k e.
Proof.
  intros Hi Hacc Ho k e.
  destruct (decide (k = i)) as [->|Hne].
  - assert (acc !! i = None) as Hnone.
    { destruct (acc !! i) as [e'|] eqn:E; [|done].
      apply Hacc in E. lia. }
    destruct o as [e'|].
    + rewrite lookup_insert_eq. rewrite <- Ho. split.
      * intros [= <-]. split; [lia|done].
      * intros [_ [= <-]]. done.
    + rewrite Hnone. rewrite <- Ho. split; [done|]. by intros [_ ?].
  - assert ((match o with Some e' => <[i := e']> acc | None => acc end) !! k
            = acc !! k) as ->.
    { destruct o; [by rewrite lookup_insert_ne|done]. }
    rewrite Hacc. split; intros [? ?]; (split; [lia|done]).
Qed.

(** What the numeric table does with one pointer. *)
Lemma numeric_slot_cases msg_data i value acc :
  0 <= value ->
  exists o,
    numeric_slot msg_data i value acc
    = Ret (match o with Some e' => <[i := e']> acc | None => acc end)
    /\ forall e, o = Some e <->
         exists msg_text,
           value <> 0xFFFFFFFF /\ value < len msg_data
           /\ extract_message msg_data value DEFAULT_MAX_LEN = Ret msg_text
           /\ msg_text <> EmptyString
           /\ e = mkOutcomeEntry i value msg_text.
Proof.
  intros Hv. unfold numeric_slot.
  destruct (Z.eqb_spec value 0xFFFFFFFF) as [Hs|Hs].
  { exists None. split; [done|]. intros e. split; [done|].
    by intros (t & ? & _). }
  destruct (Z.ltb_spec value (len msg_data)) as [Hlt|Hge]; cycle 1.
  { exists None. split; [done|]. intros e. split; [done|].
    intros (t & _ & ? & _). lia. }
  unfold numeric_entry.
  destruct (extract_message_returns msg_data value DEFAULT_MAX_LEN Hv)
    as [t Ht].
  rewrite Ht. cbn [mbind res_bind].
  destruct t as [|c t]; cbn [truthy try_except].
  - exists None. split; [done|]. intros e. split; [done|].
    intros (t' & _ & _ & [= <-] & ? & _). done.
  - eexists (Some _). split; [done|]. intros e. split.
    + intros [= <-]. eexists. by repeat split.
    + intros (t' & _ & _ & [= <-] & _ & ->). done.
Qed.

(** What the main table does with one pointer. *)
Lemma main_slot_cases msg_data i msg_offset acc :
  0 <= msg_offset ->
  exists o,
    main_slot msg_data i msg_offset acc
    = Ret (match o with Some e' => <[i := e']> acc | None => acc end)
    /\ forall e, o = Some e <->
         exists msg_text,
           msg_offset < len msg_data
           /\ extract_message msg_data msg_offset 100 = Ret msg_text
           /\ 2 < Z.of_nat (String.length msg_text)
           /\ e = mkOutcomeEntry i msg_offset msg_text.
Proof.
  intros Hv. unfold main_slot.
  destruct (Z.ltb_spec msg_offset (len msg_data)) as [Hlt|Hge]; cycle 1.
  { exists None. split; [done|]. intros e. split; [done|].
    intros (t & ? & _). lia. }
  unfold main_entry.
  destruct (extract_message_returns msg_data msg_offset 100 Hv) as [t Ht].
  rewrite Ht. cbn [mbind res_bind].
  destruct (Z.ltb_spec 2 (Z.of_nat (String.length t))) as [Hl|Hl].
  - assert (truthy t = true) as -> by (by destruct t).
    cbn [andb try_except].
    eexists (Some _). split; [done|]. intros e. split.
    + intros [= <-]. eexists. by repeat split.
    + intros (t' & _ & [= <-] & _ & ->). done.
  - rewrite andb_false_r. cbn [try_except].
    exists None. split; [done|]. intros e. split; [done|].
    intros (t' & _ & [= <-] & ? & _). lia.
Qed.

Lemma numeric_emits_slot tbl_data msg_data i value :
  slot_value tbl_data 0x20 i = Some value ->
  forall e,
    (exists msg_text,
        value <> 0xFFFFFFFF /\ value < len msg_data
        /\ extract_message msg_data value DEFAULT_MAX_LEN = Ret msg_text
        /\ msg_text <> EmptyString
        /\ e = mkOutcomeEntry i value msg_text)
    <-> numeric_emits tbl_data msg_data i e.
Proof.
  intros Hv e. unfold numeric_emits. rewrite Hv. split.
  - intros (t & ? & ? & ? & ? & ?). exists value, t. by repeat split.
  - intros (v & t & [= <-] & ? & ? & ? & ? & ?). exists t. by repeat split.
Qed.

Lemma main_emits_slot tbl_data msg_data i msg_offset :
  slot_value tbl_data 0x10 i = Some msg_offset ->
  forall e,
    (exists msg_text,
        msg_offset < len msg_data
        /\ extract_message msg_data msg_offset 100 = Ret msg_text
        /\ 2 < Z.of_nat (String.length msg_text)
        /\ e = mkOutcomeEntry i msg_offset msg_text)
    <-> main_emits tbl_data msg_data i e.
Proof.
  intros Hv e. unfold main_emits. rewrite Hv. split.
  - intros (t & ? & ? & ? & ?). exists msg_offset, t. by repeat split.
  - intros (v & t & [= <-] & ? & ? & ? & ?). exists t. by repeat split.
Qed.

(** The [while] loop of the numeric table returns, and its dictionary
    holds exactly the emitting slots [k] with [0x20 + 4 k < len - 4]. *)
Lemma numeric_loop_spec fuel tbl_data msg_data i acc :
  0 <= i ->
  len tbl_data - (0x20 + 4 * i) <= Z.of_nat fuel ->
  (forall k, 0 <= k < i -> 0x20 + 4 * k < len tbl_data - 4) ->
  (forall k e, acc !! k = Some e
               <-> 0 <= k < i /\ numeric_emits tbl_data msg_data k e) ->
  exists m,
    numeric_loop fuel tbl_data msg_data (0x20 + 4 * i) i acc = Ret m
    /\ forall k e, m !! k = Some e
         <-> 0 <= k /\ 0x20 + 4 * k < len tbl_data - 4
             /\ numeric_emits tbl_data msg_data k e.
Proof.
  revert i acc.
  induction fuel as [|fuel IH]; intros i acc Hi Hfuel Hrange Hacc;
    cbn [numeric_loop];
    (destruct (Z.ltb_spec (0x20 + 4 * i) (len tbl_data - 4)) as [Hlt|Hge];
     cbn [negb];
     [|exists acc; split; [done|]; intros k e; rewrite Hacc;
       split; [intros [? ?]; repeat split; [lia|by apply Hrange|done]
              |intros (? & ? & ?); split; [lia|done]]]).
  - lia.
  - destruct (slot_value_Some tbl_data 0x20 i) as (value & Hv & Hvr); [lia..|].
    unfold slot_value in Hv. rewrite Hv.
    cbn [of_option mbind res_bind].
    destruct (numeric_slot_cases msg_data i value acc) as (o & -> & Ho);
      [lia|].
    cbn [mbind res_bind].
    replace (0x20 + 4 * i + 4) with (0x20 + 4 * (i + 1)) by lia.
    apply IH; [lia | lia | |].
    + intros k Hk. destruct (decide (k = i)) as [->|]; [done|].
      apply Hrange. lia.
    + apply emitted_step; [done | done |].
      intros e. rewrite Ho. by apply numeric_emits_slot.
Qed.

(** The [for] loop of the main table returns, and its dictionary holds
    exactly the emitting slots among the [n] it visits. *)
Lemma main_loop_spec n tbl_data msg_data i acc :
  0 <= i ->
  (n <> 0%nat -> 0x10 + 4 * (i + Z.of_nat n) <= len tbl_data) ->
  (forall k e, acc !! k = Some e
               <-> 0 <= k < i /\ main_emits tbl_data msg_data k e) ->
  exists m,
    main_loop n tbl_data msg_data (0x10 + 4 * i) i acc = Ret m
    /\ forall k e, m !! k = Some e
         <-> 0 <= k < i + Z.of_nat n /\ main_emits tbl_data msg_data k e.
Proof.
  revert i acc.
  induction n as [|n IH]; intros i acc Hi Hlen Hacc; cbn [main_loop].
  - exists acc. split; [done|]. intros k e. rewrite Hacc.
    by replace (i + Z.of_nat 0) with i by lia.
  - specialize (Hlen ltac:(done)).
    destruct (slot_value_Some tbl_data 0x10 i) as (v & Hv & Hvr); [lia..|].
    unfold slot_value in Hv. rewrite Hv.
    cbn [of_option mbind res_bind].
    destruct (main_slot_cases msg_data i v acc) as (o & -> & Ho); [lia|].
    cbn [mbind res_bind].
    replace (0x10 + 4 * i + 4) with (0x10 + 4 * (i + 1)) by lia.
    destruct (IH (i + 1) (match o with
                          | Some e' => <[i := e']> acc
                          | None => acc
                          end)) as (m & Hm & Hspec); [lia | lia | |].
    + apply emitted_step; [done | done |].
      intros e. rewrite Ho. by apply main_emits_slot.
    + exists m. split; [done|]. intros k e. rewrite Hspec.
      by replace (i + 1 + Z.of_nat n) with (i + Z.of_nat (S n)) by lia.
Qed.

(** [parse_numeric_table] builds its dictionary without raising: a slot
    [k] is visited when [0x20 + 4 k < len(tbl_data) - 4], and a visited
    slot is stored when [numeric_emits] says so. *)
Lemma numeric_outcomes_spec tbl_data msg_data :
  exists m,
    numeric_outcomes tbl_data msg_data = Ret m
    /\ forall k e, m !! k = Some e
         <-> 0 <= k /\ 0x20 + 4 * k < len tbl_data - 4
             /\ numeric_emits tbl_data msg_data k e.
Proof.
  unfold numeric_outcomes. change 0x20 with (0x20 + 4 * 0) at 1.
  apply numeric_loop_spec; [lia | unfold len; lia | lia |].
  intros k e. rewrite lookup_empty. split; [done|lia].
Qed.

(** [parse_main_outcome_table] builds its dictionary without raising:
    the slots [0 .. max_outcomes - 1] are visited, and a visited slot is
    stored when [main_emits] says so. *)
Lemma main_outcomes_spec tbl_data msg_data :
  exists m,
    main_outcomes tbl_data msg_data = Ret m
    /\ forall k e, m !! k = Some e
         <-> 0 <= k < max_outcomes tbl_data
             /\ main_emits tbl_data msg_data k e.
Proof.
  unfold main_outcomes. change 0x10 with (0x10 + 4 * 0) at 1.
  destruct (main_loop_spec (Z.to_nat (max_outcomes tbl_data)) tbl_data
              msg_data 0 ∅) as (m & Hm & Hspec).
  - lia.
  - unfold max_outcomes. pose proof (len_nonneg tbl_data).
    Z.div_mod_to_equations. lia.

  - intros k e. rewrite lookup_empty. split; [done|lia].
  - exists m. split; [done|]. intros k e. rewrite Hspec.
    split; intros [? ?]; (split; [lia|done]).
Qed.

End outcome_tables.

Section outcome_claims.
Import Py APBAOutcomeParser Closed Samples.
Implicit Types (tbl_data msg_data : list byte).

(** Every entry either table emits carries its slot number as [code], a
    pointer below the length of the blob as [offset], and the text the
    resolver returns for that pointer as [message]. *)
Lemma emitted_entries_point_into_blob tbl_data msg_data :
  (exists m, numeric_outcomes tbl_data msg_data = Ret m
     /\ forall k e, m !! k = Some e ->
          code e = k /\ 0 <= offset e < len msg_data
          /\ offset e <> 0xFFFFFFFF)
  /\ (exists m, main_outcomes tbl_data msg_data = Ret m
        /\ forall k e, m !! k = Some e ->
             code e = k /\ 0 <= offset e < len msg_data).
Proof.
  split.
  - destruct (numeric_outcomes_spec tbl_data msg_data) as (m & Hm & Hspec).
    exists m. split; [done|]. intros k e He.
    apply Hspec in He as (Hk & Hr & v & t & Hv & Hs & Hlt & _ & _ & ->).
    destruct (slot_value_Some tbl_data 0x20 k) as (v' & Hv' & Hb); [lia..|].
    rewrite Hv in Hv'. injection Hv' as <-. cbn. repeat split; (done || lia).
  - destruct (main_outcomes_spec tbl_data msg_data) as (m & Hm & Hspec).
    exists m. split; [done|]. intros k e He.
    apply Hspec in He as (Hk & v & t & Hv & Hlt & _ & _ & ->).
    assert (16 + 4 * k + 4 <= len tbl_data) as Hin.
    { unfold max_outcomes in Hk. Z.div_mod_to_equations. lia. }
    destruct (slot_value_Some tbl_data 0x10 k) as (v' & Hv' & Hb); [lia..|].
    rewrite Hv in Hv'. injection Hv' as <-. cbn. repeat split; (done || lia).
Qed.

(** With a blob of at most [0xFFFFFFFF] bytes the main table emits no
    entry for a sentinel pointer either: the bound test covers it. *)
Lemma main_outcomes_sentinel_below_4GiB tbl_data msg_data :
  len msg_data <= 0xFFFFFFFF ->
  exists m, main_outcomes tbl_data msg_data = Ret m
    /\ forall k e, m !! k = Some e -> offset e <> 0xFFFFFFFF.
Proof.
  intros Hlen.
  destruct (emitted_entries_point_into_blob tbl_data msg_data)
    as (_ & m & Hm & H).
  exists m. split; [done|]. intros k e He. apply H in He. lia.
Qed.

Lemma huge_blob_len : len huge_blob = 0xFFFFFFFF + 3.
Proof.
  unfold huge_blob. rewrite len_app. unfold len.
  rewrite length_replicate.
  rewrite Z2Nat.id by lia.
  change (length (bytes_of "ABC")) with 3%nat. lia.
Qed.

Lemma huge_blob_window :
  message_window huge_blob 0xFFFFFFFF 100 = bytes_of "ABC".
Proof.
  unfold message_window, huge_blob.
  rewrite (drop_app_length' (replicate (Z.to_nat 0xFFFFFFFF) Byte.x00)
             (bytes_of "ABC") (Z.to_nat 0xFFFFFFFF) (eq_sym (length_replicate _ _))).
  reflexivity.
Qed.

(** C3, where the code departs from it. The main table does not test
    for the sentinel: with a blob longer than [0xFFFFFFFF] bytes, a slot
    holding [0xFFFFFFFF] is resolved like any other pointer and an entry
    is stored for it. *)
Theorem C3_main_table_resolves_sentinel :
  slot_value main_table_sentinel 0x10 0 = Some 0xFFFFFFFF
  /\ len huge_blob = 0xFFFFFFFF + 3
  /\ exists m,
       main_outcomes main_table_sentinel huge_blob = Ret m
       /\ m !! 0 = Some (mkOutcomeEntry 0 0xFFFFFFFF "ABC").
Proof.
  split; [reflexivity|]. split; [apply huge_blob_len|].
  destruct (main_outcomes_spec main_table_sentinel huge_blob)
    as (m & Hm & Hspec).
  exists m. split; [exact Hm|]. apply Hspec.
  split; [vm_compute; split; [discriminate | reflexivity]|].
  exists 0xFFFFFFFF, "ABC"%string.
  split; [reflexivity|].
  split; [rewrite huge_blob_len; lia|].
  split.
  - rewrite extract_message_closed by (rewrite huge_blob_len; lia).
    rewrite huge_blob_window. reflexivity.
  - split; [vm_compute; reflexivity | reflexivity].
Qed.

(** C4 as stated fails: the numeric table stores the one-character
    message ["7"], whose length is not greater than 2. *)
Lemma C4_numeric_table_stores_short_text :
  exists m,
    numeric_outcomes numeric_table_two_slots seven_blob = Ret m
    /\ m !! 0 = Some (mkOutcomeEntry 0 0 "7")
    /\ 0 < len seven_blob
    /\ extract_message seven_blob 0 DEFAULT_MAX_LEN = Ret "7"%string
    /\ ~ (2 < Z.of_nat (String.length "7")).
Proof.
  destruct (numeric_outcomes_spec numeric_table_two_slots seven_blob)
    as (m & Hm & Hspec).
  exists m. split; [done|]. split; [|by vm_compute].
  apply Hspec. split; [done|]. split; [by vm_compute|].
  exists 0, "7"%string. by vm_compute.
Qed.

(** C4, amended. In the main table an entry is stored for an in-range
    pointer exactly when the resolved text (at most 100 bytes scanned) is
    longer than 2 characters. In the numeric table an entry is stored
    for an in-range pointer other than the sentinel exactly when the
    resolved text (at most 200 bytes scanned) is not empty; texts of one
    or two characters are kept there. The two tables differ in this
    filter as well as in their header size, scan bound and entry cap. *)
Theorem C4_length_filter_in_main_table_only tbl_data msg_data :
  (exists m,
      numeric_outcomes tbl_data msg_data = Ret m
      /\ (forall k e, m !! k = Some e ->
            extract_message msg_data (offset e) DEFAULT_MAX_LEN = Ret (message e)
            /\ 1 <= Z.of_nat (String.length (message e)))
      /\ (forall k value msg_text,
            0 <= k -> 0x20 + 4 * k < len tbl_data - 4 ->
            slot_value tbl_data 0x20 k = Some value ->
            value <> 0xFFFFFFFF -> value < len msg_data ->
            extract_message msg_data value DEFAULT_MAX_LEN = Ret msg_text ->
            (m !! k = Some (mkOutcomeEntry k value msg_text)
             <-> 1 <= Z.of_nat (String.length msg_text))))
  /\ (exists m,
        main_outcomes tbl_data msg_data = Ret m
        /\ (forall k e, m !! k = Some e ->
              extract_message msg_data (offset e) 100 = Ret (message e)
              /\ 2 < Z.of_nat (String.length (message e)))
        /\ (forall k msg_offset msg_text,
              0 <= k < max_outcomes tbl_data ->
              slot_value tbl_data 0x10 k = Some msg_offset ->
              msg_offset < len msg_data ->
              extract_message msg_data msg_offset 100 = Ret msg_text ->
              (m !! k = Some (mkOutcomeEntry k msg_offset msg_text)
               <-> 2 < Z.of_nat (String.length msg_text)))).
Proof.
  assert (forall s : string, s <> EmptyString <-> 1 <= Z.of_nat (String.length s))
    as Hlen.
  { intros [|c s]; cbn [String.length]; split; (done || lia). }
  split.
  - destruct (numeric_outcomes_spec tbl_data msg_data) as (m & Hm & Hspec).
    exists m. split; [done|]. split.
    + intros k e He.
      apply Hspec in He as (_ & _ & v & t & _ & _ & _ & Ht & Hne & ->).
      cbn. split; [done|]. by apply Hlen.
    + intros k v t Hk Hr Hv Hs Hlt Ht. rewrite Hspec. split.
      * intros (_ & _ & v' & t' & _ & _ & _ & _ & Hne & [= <- <-]).
        by apply Hlen.
      * intros Hl. repeat split; [done | done|].
        exists v, t. repeat split; try done. by apply Hlen.
  - destruct (main_outcomes_spec tbl_data msg_data) as (m & Hm & Hspec).
    exists m. split; [done|]. split.
    + intros k e He.
      apply Hspec in He as (_ & v & t & _ & _ & Ht & Hl & ->). by cbn.
    + intros k v t Hk Hv Hlt Ht. rewrite Hspec. split.
      * by intros (_ & v' & t' & _ & _ & _ & Hl & [= <- <-]).
      * intros Hl. split; [done|]. exists v, t. by repeat split.
Qed.

(** A numeric table of [0x20 + 4 n] bytes never yields an entry for its
    last slot, [n - 1]: the loop stops one slot early. *)
Lemma numeric_outcomes_skip_last_slot tbl_data msg_data n :
  len tbl_data = 0x20 + 4 * n ->
  exists m, numeric_outcomes tbl_data msg_data = Ret m /\ m !! (n - 1) = None.
Proof.
  intros Hlen.
  destruct (numeric_outcomes_spec tbl_data msg_data) as (m & Hm & Hspec).
  exists m. split; [done|].
  destruct (m !! (n - 1)) as [e|] eqn:E; [|done].
  apply Hspec in E. lia.
Qed.

(** C8, where the code departs from it. A numeric table of exactly
    [0x24] bytes holds one complete pointer slot, which lies fully inside
    the table and points at the message ["Single"]; the loop condition
    [offset < len(tbl_data) - 4] is false at once, the slot is never read
    and the dictionary stays empty. The main table, on the same slot
    after its own header, reads it and stores the entry. *)
Theorem C8_numeric_table_skips_final_slot :
  len numeric_table_one_slot = 0x20 + 4 * 1
  /\ slot_value numeric_table_one_slot 0x20 0 = Some 0x10
  /\ extract_message single_blob 0x10 DEFAULT_MAX_LEN = Ret "Single"%string
  /\ numeric_outcomes numeric_table_one_slot single_blob = Ret ∅
  /\ exists m, main_outcomes main_table_one_slot single_blob = Ret m
       /\ m !! 0 = Some (mkOutcomeEntry 0 0x10 "Single").
Proof.
  split; [reflexivity|]. split; [reflexivity|]. split; [by vm_compute|].
  split; [reflexivity|].
  destruct (main_outcomes_spec main_table_one_slot single_blob)
    as (m & Hm & Hspec).
  exists m. split; [done|]. apply Hspec. split; [by vm_compute|].
  exists 0x10, "Single"%string. by vm_compute.
Qed.

End outcome_claims.

(** * Repeated runs *)

Section repeated_runs.
Import Py APBAPlayerParser APBAOutcomeParser Closed Samples.

(** [parse_tables] returns for every state of the instance: it stores
    the two dictionaries, which depend on the four files alone, and
    leaves the files as they were. *)
Lemma parse_tables_closed (st : ParserState) :
  exists numeric main,
    numeric_outcomes (B3EHNUM_TBL (files st)) (B3EHNUM_MSG (files st))
    = Ret numeric
    /\ main_outcomes (B3EHMSG_TBL (files st)) (B3EHMSG_MSG (files st))
       = Ret main
    /\ parse_tables st
       = Ret ({| files := files st;
                 outcomes := <["main"%string := main]>
                               (<["numeric"%string := numeric]> (outcomes st)) |},
              <["main"%string := main]>
                (<["numeric"%string := numeric]> (outcomes st))).
Proof.
  destruct (numeric_outcomes_spec (B3EHNUM_TBL (files st))
              (B3EHNUM_MSG (files st))) as (numeric & Hn & _).
  destruct (main_outcomes_spec (B3EHMSG_TBL (files st))
              (B3EHMSG_MSG (files st))) as (main & Hm & _).
  exists numeric, main. split; [exact Hn|]. split; [exact Hm|].
  unfold parse_tables, parse_numeric_table, parse_main_outcome_table.
  rewrite Hn. cbn [mbind res_bind files outcomes].
  rewrite Hm. reflexivity.
Qed.

(** C9. Decoding the outcome tables returns for every state of the
    parser instance, leaves the bytes of the files unchanged, and a
    second run on the same instance returns the same dictionaries and
    leaves the same state; the dictionaries are those of
    [numeric_outcomes] and [main_outcomes], functions of the table and
    blob bytes. Scanning a player buffer returns for every buffer; the
    records it appends are those [parse_player_record] yields on the
    slices of the buffer, whatever the instance had collected before, so
    two fresh instances given the same buffer return the same list. *)
Theorem C9_decoding_is_repeatable (st : ParserState) (data : list byte)
    (players : list PlayerRecord) :
  (exists numeric main st1,
      numeric_outcomes (B3EHNUM_TBL (files st)) (B3EHNUM_MSG (files st))
      = Ret numeric
      /\ main_outcomes (B3EHMSG_TBL (files st)) (B3EHMSG_MSG (files st))
         = Ret main
      /\ outcomes st1 = <["main"%string := main]>
                          (<["numeric"%string := numeric]> (outcomes st))
      /\ files st1 = files st
      /\ parse_tables st = Ret (st1, outcomes st1)
      /\ parse_tables st1 = Ret (st1, outcomes st1))
  /\ analyze_structure data players = Ret (players ++ scanned_records data)
  /\ parse_file data = Ret (scanned_records data).
Proof.
  split; [|split; [apply analyze_structure_closed | apply parse_file_closed]].
  destruct (parse_tables_closed st) as (numeric & main & Hn & Hm & Hrun).
  exists numeric, main.
  eexists {| files := files st; outcomes := _ |}.
  split; [exact Hn|]. split; [exact Hm|].
  split; [reflexivity|]. split; [reflexivity|]. split; [exact Hrun|].
  cbn [outcomes].
  destruct (parse_tables_closed
              {| files := files st;
                 outcomes := <["main"%string := main]>
                               (<["numeric"%string := numeric]> (outcomes st)) |})
    as (numeric' & main' & Hn' & Hm' & Hrun').
  cbn [files outcomes] in Hn', Hm', Hrun'.
  rewrite Hn in Hn'. injection Hn' as <-.
  rewrite Hm in Hm'. injection Hm' as <-.
  rewrite Hrun'.
  assert (<["main"%string := main]>
            (<["numeric"%string := numeric]>
               (<["main"%string := main]>
                  (<["numeric"%string := numeric]> (outcomes st))))
          = <["main"%string := main]>
              (<["numeric"%string := numeric]> (outcomes st))) as ->;
    [|reflexivity].
  apply map_eq. intros key. rewrite !lookup_insert.
  repeat case_decide; congruence.
Qed.

End repeated_runs.

(** * Further properties of the scanner and the player-card decoder *)

Section scanner_properties.
Import Py APBAPlayerParser Closed Samples.
Implicit Types (data record rest : list byte) (player : PlayerRecord).

Lemma omap_seqZ_ext {B} (f g : Z -> option B) (m n : Z) :
  (forall k, m <= k < m + n -> f k = g k) ->
  omap f (seqZ m n) = omap g (seqZ m n).
Proof.
  intros H. apply list_omap_ext, Forall2_same_length_lookup.
  split; [done|]. intros i x y Hx Hy. rewrite Hx in Hy. injection Hy as <-.
  apply H. apply elem_of_seqZ. by eapply list_elem_of_lookup_2.
Qed.

(** The scanner returns for every buffer. Its result lists, in offset
    order, the records the decoder accepts on the 146-byte slices at the
    offsets [0, 146, 292, ...] that leave at least 150 bytes; a rejected
    slice is skipped and the scan goes on. *)
Theorem parse_file_decodes_each_stride data :
  parse_file data
  = Ret (omap (fun k => parse_player_record
                          (slice data (146 * k) (146 * k + 146)))
              (seqZ 0 (records_scanned data)))
  /\ forall k, 0 <= k ->
       (k < records_scanned data <-> 146 * k + 150 <= len data).
Proof.
  split; [|by apply records_scanned_spec].
  rewrite parse_file_closed. unfold scanned_records. apply (f_equal Ret).
  apply omap_seqZ_ext. intros k Hk.
  apply parse_player_record_scanner_slice; [lia|].
  assert (146 * k + 150 <= len data) by (apply records_scanned_spec; lia).
  lia.
Qed.

Lemma records_scanned_app record rest :
  len record = 146 -> 4 <= len rest ->
  records_scanned (record ++ rest) = records_scanned rest + 1.
Proof.
  intros Hr Hrest. unfold records_scanned. rewrite len_app, Hr.
  destruct (Z.ltb_spec (146 + len rest) 150); [lia|].
  destruct (Z.ltb_spec (len rest) 150); Z.div_mod_to_equations; lia.
Qed.

Lemma slice_app_r {A} (l k : list A) (a b : Z) :
  0 <= a -> 0 <= b ->
  slice (l ++ k) (len l + a) (len l + b) = slice k a b.
Proof.
  intros Ha Hb. pose proof (len_nonneg l).
  rewrite !slice_nonneg by lia.
  replace (len l + b - (len l + a)) with (b - a) by lia.
  replace (Z.to_nat (len l + a)) with (length l + Z.to_nat a)%nat
    by (unfold len; lia).
  by rewrite drop_app_add.
Qed.

(** Scanning a buffer that begins with one 146-byte record: the record
    is decoded on its own and the rest of the buffer is scanned as a
    buffer of its own, provided at least 4 bytes follow the record. In
    particular a record the decoder rejects changes nothing in what
    follows. *)
Theorem parse_file_record_then_rest record rest :
  len record = 146 -> 4 <= len rest ->
  exists players,
    parse_file rest = Ret players
    /\ parse_file (record ++ rest)
       = Ret (option_list (parse_player_record record) ++ players).
Proof.
  intros Hr Hrest. exists (scanned_records rest).
  split; [apply parse_file_closed|].
  rewrite parse_file_closed. apply (f_equal Ret). unfold scanned_records.
  rewrite records_scanned_app by done.
  pose proof (records_scanned_bounds rest) as Hn.
  rewrite (seqZ_cons 0) by lia. cbn [omap list_omap].
  replace (Z.pred (records_scanned rest + 1)) with (records_scanned rest)
    by lia.
  assert (parse_player_record (slice (record ++ rest) (146 * 0) (146 * 0 + 200))
          = parse_player_record record) as ->.
  { rewrite <- (parse_player_record_take (slice _ _ _)).
    - f_equal. rewrite slice_nonneg by lia. unfold RECORD_SIZE.
      cbn [Z.mul Z.add Z.sub Z.to_nat]. rewrite drop_0, take_take.
      rewrite take_app_length'; [done | unfold len in Hr; lia].
    - rewrite slice_nonneg by lia. unfold RECORD_SIZE, len in *.
      rewrite length_take, length_drop, length_app. lia. }
  assert (omap (fun k => parse_player_record
                           (slice (record ++ rest) (146 * k) (146 * k + 200)))
               (seqZ (Z.succ 0) (records_scanned rest))
          = omap (fun k => parse_player_record
                             (slice rest (146 * k) (146 * k + 200)))
                 (seqZ 0 (records_scanned rest))) as ->.
  { change (Z.succ 0) with (1 + 0). rewrite <- fmap_add_seqZ.
    apply list_omap_ext, Forall2_fmap_l, Forall_Forall2_diag, Forall_forall.
    intros k Hk. apply elem_of_seqZ in Hk. cbn [compose].
    replace (146 * (1 + k)) with (len record + 146 * k) by lia.
    replace (len record + 146 * k + 200) with (len record + (146 * k + 200))
      by lia.
    by rewrite slice_app_r by lia. }
  by destruct (parse_player_record record).
Qed.

(** A rejected all-zero record in front of the example record. *)
Lemma parse_file_skips_rejected_record :
  exists players,
    parse_file (leibold_record ++ replicate 4 Byte.x00) = Ret players
    /\ parse_file (rejected_record ++ leibold_record ++ replicate 4 Byte.x00)
       = Ret (option_list (parse_player_record rejected_record) ++ players).
Proof.
  apply (parse_file_record_then_rest rejected_record
           (leibold_record ++ replicate 4 Byte.x00)).
  - reflexivity.
  - vm_compute. discriminate.
Defined.

(** Calling [analyze_structure] again on the same instance and buffer
    appends the same records a second time: [self.players] is never
    reset, so the second result is the first one doubled. *)
Theorem analyze_structure_twice_duplicates data players :
  analyze_structure data [] = Ret players ->
  analyze_structure data players = Ret (players ++ players).
Proof.
  rewrite !analyze_structure_closed. intros [= <-]. reflexivity.
Qed.

Lemma analyze_structure_twice_on_example :
  exists player,
    analyze_structure (leibold_record ++ replicate 4 Byte.x00) [] = Ret [player]
    /\ analyze_structure (leibold_record ++ replicate 4 Byte.x00) [player]
       = Ret [player; player].
Proof.
  destruct (analyze_structure (leibold_record ++ replicate 4 Byte.x00) [])
    as [players| |] eqn:E; [|vm_compute in E; discriminate E ..].
  pose proof (analyze_structure_twice_duplicates _ _ E) as H2.
  assert (exists player, players = [player]) as [player ->].
  { vm_compute in E. injection E as <-. eauto. }
  exists player. split; [reflexivity | exact H2].
Defined.

End scanner_properties.

Section player_record_properties.
Import Py APBAPlayerParser Closed Samples.
Implicit Types (data record : list byte) (player : PlayerRecord) (s : string).

Lemma rstrip_cons c s :
  rstrip (String c s) = EmptyString \/ exists t, rstrip (String c s) = String c t.
Proof.
  cbn [rstrip]. destruct (rstrip s); [destruct (isspace c)|]; eauto.
Qed.

Lemma rstrip_idemp s : rstrip (rstrip s) = rstrip s.
Proof.
  induction s as [|c s IH]; [done|]. cbn [rstrip].
  destruct (rstrip s) as [|c' t] eqn:E.
  - destruct (isspace c) eqn:Ec; [done|]. cbn [rstrip]. by rewrite Ec.
  - cbn [rstrip]. cbn [rstrip] in IH.
    destruct (match rstrip t with
              | EmptyString => if isspace c' then EmptyString else String c' EmptyString
              | String a s0 => String c' (String a s0)
              end); [done|]. by rewrite IH.
Qed.

Lemma lstrip_head s :
  lstrip s = EmptyString
  \/ exists c t, lstrip s = String c t /\ isspace c = false.
Proof.
  induction s as [|c s IH]; [by left|]. cbn [lstrip].
  destruct (isspace c) eqn:Ec; [done|]. right. eauto.
Qed.

(** The result of [strip] has nothing left to strip on either side. *)
Lemma strip_stable s :
  lstrip (strip s) = strip s /\ rstrip (strip s) = strip s.
Proof.
  unfold strip. split; [|apply rstrip_idemp].
  destruct (lstrip_head s) as [->|(c & t & -> & Hc)]; [done|].
  destruct (rstrip_cons c t) as [->|[t' ->]]; [done|].
  cbn [lstrip]. by rewrite Hc.
Qed.

(** Every record the scanner returns has a last name that is not empty
    and has no white space at either end, and its [throws] equals its
    [bats]. *)
Theorem scanned_players_are_named data :
  exists players,
    parse_file data = Ret players
    /\ Forall (fun player =>
                 last_name player <> EmptyString
                 /\ lstrip (last_name player) = last_name player
                 /\ rstrip (last_name player) = last_name player
                 /\ throws player = bats player)
              players.
Proof.
  exists (scanned_records data). split; [apply parse_file_closed|].
  apply Forall_forall. intros p Hp. unfold scanned_records in Hp.
  apply list_elem_of_omap in Hp as (k & _ & Hk).
  apply parse_player_record_Some_inv in Hk
    as (_ & _ & Hname & Hne & _ & _ & _ & _ & Hthrows & _).
  rewrite Hname. unfold last_name_text in *.
  destruct (strip_stable (decode_ascii_ignore (slice
              (slice data (146 * k) (146 * k + 200)) 1 (1 + 15)))) as [Hl Hr].
  by repeat split.
Qed.

(** Reading the bytes [a, a + n) one by one gives the values of the
    slice [data[a : a + n]]. *)
Lemma mapM_index_seqZ record a n :
  0 <= a -> 0 <= n -> a + n <= len record ->
  mapM (index record) (seqZ a n) = Some (byte_val <$> slice record a (a + n)).
Proof.
  intros Ha Hn Hlen. apply mapM_Some.
  rewrite slice_nonneg by lia. replace (a + n - a) with n by lia.
  apply Forall2_same_length_lookup. split.
  - rewrite length_seqZ, length_fmap, length_take, length_drop.
    unfold len in Hlen. lia.
  - intros i j v Hj Hv.
    apply lookup_seqZ in Hj as [-> Hi].
    rewrite list_lookup_fmap in Hv.
    destruct (take (Z.to_nat n) (drop (Z.to_nat a) record) !! i) as [b|] eqn:Hb;
      [|done].
    injection Hv as <-.
    apply lookup_take_Some in Hb as [Hb _]. rewrite lookup_drop in Hb.
    unfold index. rewrite item_nonneg by lia.
    replace (Z.to_nat (a + Z.of_nat i)) with (Z.to_nat a + i)%nat by lia.
    by rewrite Hb.
Qed.

(** What an accepted record tells about the fields the first inversion
    leaves out. *)
Lemma parse_player_record_Some_fields record player :
  parse_player_record record = Some player ->
  (exists m, index record 0x10 = Some m
             /\ first_name player
                = if (0 <? m) && (m <? 20) then first_name_text record
                  else EmptyString)
  /\ index record 0x20 = Some (byte_0x20 (raw_ratings player))
  /\ index record 0x21 = Some (byte_0x21 (raw_ratings player))
  /\ index record 0x22 = Some (byte_0x22 (raw_ratings player))
  /\ index record 0x23 = Some (byte_0x23 (raw_ratings player))
  /\ index record 0x24 = Some (byte_0x24 (raw_ratings player))
  /\ index record 0x25 = Some (byte_0x25 (raw_ratings player))
  /\ mapM (index record) (seqZ 0x30 (0x80 - 0x30))
     = Some (batting_chart_raw player).
Proof.
  unfold parse_player_record.
  destruct (Z.ltb_spec (len record) RECORD_SIZE) as [|Hlen]; [done|].
  unfold parse_player_record_body.
  rewrite (guarded_item_nth _ 1 0 "UNK"), (guarded_item_nth _ 2 1 "0"),
    (guarded_item_nth _ 3 2 "R"), (guarded_item_nth _ 4 3 "0") by lia.
  intros H.
  destruct (index record 0) as [n|]; [|done].
  cbn [mbind option_bind] in H.
  destruct ((0 <? n) && (n <? 20)); [|done].
  cbn [negb] in H.
  destruct (index record 16) as [m|]; [|done].
  cbn [mbind option_bind] in H.
  destruct (truthy (last_name_text record)); [|done].
  cbn [negb] in H.
  destruct (index record 32) as [r20|]; [|done]; cbn [mbind option_bind] in H.
  destruct (index record 33) as [r21|]; [|done]; cbn [mbind option_bind] in H.
  destruct (index record 34) as [r22|]; [|done]; cbn [mbind option_bind] in H.
  destruct (index record 35) as [r23|]; [|done]; cbn [mbind option_bind] in H.
  destruct (index record 36) as [r24|]; [|done]; cbn [mbind option_bind] in H.
  destruct (index record 37) as [r25|]; [|done]; cbn [mbind option_bind] in H.
  destruct (mapM _ _) as [chart|]; [|done].
  cbn [mbind option_bind] in H.
  injection H as <-. cbn. repeat split; try done. by exists m.
Qed.

(** An accepted record carries its raw bytes unchanged: the six rating
    values are the bytes at offsets [0x20 .. 0x25] and the batting chart
    is the 80 bytes at offsets [0x30 .. 0x7F], in order, each between 0
    and 255. *)
Theorem accepted_record_keeps_raw_bytes record player :
  parse_player_record record = Some player ->
  batting_chart_raw player = byte_val <$> slice record 0x30 0x80
  /\ length (batting_chart_raw player) = 80%nat
  /\ Forall (fun v => 0 <= v <= 255) (batting_chart_raw player)
  /\ index record 0x20 = Some (byte_0x20 (raw_ratings player))
  /\ index record 0x21 = Some (byte_0x21 (raw_ratings player))
  /\ index record 0x22 = Some (byte_0x22 (raw_ratings player))
  /\ index record 0x23 = Some (byte_0x23 (raw_ratings player))
  /\ index record 0x24 = Some (byte_0x24 (raw_ratings player))
  /\ index record 0x25 = Some (byte_0x25 (raw_ratings player)).
Proof.
  intros Hp.
  pose proof (parse_player_record_Some_inv _ _ Hp) as (Hlen & _).
  apply parse_player_record_Some_fields in Hp
    as (_ & H20 & H21 & H22 & H23 & H24 & H25 & Hchart).
  unfold RECORD_SIZE in Hlen.
  rewrite (mapM_index_seqZ record 0x30 (0x80 - 0x30)) in Hchart by lia.
  injection Hchart as Hchart.
  change (0x30 + (0x80 - 0x30)) with 0x80 in Hchart.
  rewrite <- Hchart. repeat split; try done.
  - rewrite length_fmap, slice_nonneg by lia.
    rewrite length_take, length_drop. unfold len in Hlen. lia.
  - apply Forall_fmap, Forall_forall. intros b _. cbn [compose].
    unfold byte_val. pose proof (Byte.to_N_bounded b). lia.
Qed.

Lemma leibold_record_raw_bytes :
  exists player,
    parse_player_record leibold_record = Some player
    /\ batting_chart_raw player = replicate 80 0
    /\ byte_0x20 (raw_ratings player) = 0.
Proof.
  destruct (parse_player_record leibold_record) as [p|] eqn:Hp;
    [|vm_compute in Hp; discriminate Hp].
  exists p. split; [reflexivity|].
  destruct (accepted_record_keeps_raw_bytes leibold_record p Hp)
    as (Hchart & _ & _ & H20 & _).
  split.
  - etransitivity; [exact Hchart|]. vm_compute. reflexivity.
  - assert (index leibold_record 0x20 = Some 0) as E
      by (vm_compute; reflexivity).
    rewrite E in H20. injection H20 as H20. symmetry. exact H20.
Defined.



(** The four descriptor fields are the first four tokens whatever the
    number of tokens: with four or more tokens nothing is defaulted and
    the tokens after the fourth are dropped from the fields, while
    [position_string] keeps the whole trimmed text. *)
Theorem accepted_record_first_four_tokens record player :
  parse_player_record record = Some player ->
  let parts := descriptor_parts (descriptor_string record) in
  (4 <= length parts)%nat ->
  [position player; grade player; bats player; card_number player]
  = take 4 parts
  /\ position_string player = descriptor_string record.
Proof.
  intros Hp parts Hlen.
  apply parse_player_record_Some_inv in Hp
    as (_ & _ & _ & _ & Hpos & Hgrade & Hbats & Hcard & _ & Hstr).
  fold parts in Hpos, Hgrade, Hbats, Hcard.
  split; [|done]. rewrite Hpos, Hgrade, Hbats, Hcard.
  destruct parts as [|t0 [|t1 [|t2 [|t3 parts]]]]; simpl in Hlen; try lia.
  reflexivity.
Qed.

Lemma six_token_record_fields :
  exists player,
    parse_player_record six_token_record = Some player
    /\ [position player; grade player; bats player; card_number player]
       = ["C"; "1"; "R"; "5"]%string
    /\ position_string player = "C 1 R 5 X Y"%string.
Proof.
  destruct (parse_player_record six_token_record) as [p|] eqn:Hp;
    [|vm_compute in Hp; discriminate Hp].
  exists p. split; [reflexivity|].
  pose proof (accepted_record_first_four_tokens six_token_record p Hp) as H.
  cbv zeta in H.
  assert (descriptor_string six_token_record = "C 1 R 5 X Y"%string) as E
    by (vm_compute; reflexivity).
  rewrite E in H.
  destruct H as [H1 H2]; [vm_compute; lia|].
  split; [|exact H2]. etransitivity; [exact H1|]. vm_compute. reflexivity.
Defined.

End player_record_properties.

(** * Further properties of the message resolver *)

Section resolver_properties.
Import Py APBAOutcomeParser Closed Samples.
Implicit Types (data bs pre post : list byte) (s : string)
  (offset max_len : Z) (P : ascii -> Prop).

Lemma decode_ascii_ignore_length bs :
  (String.length (decode_ascii_ignore bs) <= length bs)%nat.
Proof.
  induction bs as [|b bs IH]; [done|]. cbn [decode_ascii_ignore].
  destruct (byte_val b <? 128); cbn [String.length length]; lia.
Qed.

Lemma keep_chars_length keep s :
  (String.length (keep_chars keep s) <= String.length s)%nat.
Proof.
  induction s as [|c s IH]; [done|]. cbn [keep_chars].
  destruct (keep c); cbn [String.length]; lia.
Qed.

Lemma keep_chars_Forall keep s :
  Forall (fun c => keep c = true) (list_ascii_of_string (keep_chars keep s)).
Proof.
  induction s as [|c s IH]; [constructor|]. cbn [keep_chars].
  destruct (keep c) eqn:E; [|done]. by constructor.
Qed.

Lemma lstrip_length s : (String.length (lstrip s) <= String.length s)%nat.
Proof.
  induction s as [|c s IH]; [done|]. cbn [lstrip].
  destruct (isspace c); cbn [String.length] in *; lia.
Qed.

Lemma rstrip_length s : (String.length (rstrip s) <= String.length s)%nat.
Proof.
  induction s as [|c s IH]; [done|]. cbn [rstrip].
  destruct (rstrip s); [destruct (isspace c)|]; cbn [String.length] in *; lia.
Qed.

Lemma lstrip_Forall P s :
  Forall P (list_ascii_of_string s) ->
  Forall P (list_ascii_of_string (lstrip s)).
Proof.
  induction s as [|c s IH]; [done|]. cbn [lstrip]. intros H.
  destruct (isspace c); [|done]. apply IH. by inversion H.
Qed.

Lemma rstrip_Forall P s :
  Forall P (list_ascii_of_string s) ->
  Forall P (list_ascii_of_string (rstrip s)).
Proof.
  induction s as [|c s IH]; [done|]. cbn [rstrip]. intros H.
  inversion H as [|? ? Hc Hs]; subst. specialize (IH Hs).
  destruct (rstrip s); [destruct (isspace c)|].
  - constructor.
  - by constructor.
  - by constructor.
Qed.

Lemma keep_printable_isprintable c :
  keep_printable c = true -> isprintable c = true.
Proof.
  unfold keep_printable. destruct (isprintable c) eqn:E; [done|].
  cbn [orb]. intros Hc. apply Ascii.eqb_eq in Hc. subst c.
  vm_compute in E. discriminate E.
Qed.

(** The text made from any bytes is no longer than them, holds
    printable characters only and has nothing left to strip. *)
Lemma clean_text_is_clean bs :
  (String.length (clean_text bs) <= length bs)%nat
  /\ Forall (fun c => 32 <= ord c <= 126) (list_ascii_of_string (clean_text bs))
  /\ lstrip (clean_text bs) = clean_text bs
  /\ rstrip (clean_text bs) = clean_text bs.
Proof.
  unfold clean_text. split; [|split; [|apply strip_stable]].
  - pose proof (rstrip_length
                  (lstrip (keep_chars keep_printable (decode_ascii_ignore bs)))).
    pose proof (lstrip_length (keep_chars keep_printable (decode_ascii_ignore bs))).
    pose proof (keep_chars_length keep_printable (decode_ascii_ignore bs)).
    pose proof (decode_ascii_ignore_length bs).
    unfold strip. lia.
  - unfold strip. apply rstrip_Forall, lstrip_Forall.
    eapply Forall_impl; [apply keep_chars_Forall|].
    intros c Hc. apply keep_printable_isprintable in Hc.
    unfold isprintable in Hc. apply andb_true_iff in Hc as [H1 H2]. lia.
Qed.

Lemma scanned_window_length data offset max_len :
  Z.of_nat (length (until_nul (message_window data offset max_len)))
  <= Z.max 0 max_len.
Proof.
  pose proof (until_nul_length (message_window data offset max_len)) as H.
  unfold message_window in *. rewrite length_take in H. lia.
Qed.

(** Whatever the blob holds, the text the resolver returns for a
    non-negative offset has at most [max_len] characters, all of them
    printable ASCII (codes 32 to 126), and no white space at either
    end. *)
Theorem extract_message_text_is_clean data offset max_len :
  0 <= offset ->
  exists text,
    extract_message data offset max_len = Ret text
    /\ Z.of_nat (String.length text) <= Z.max 0 max_len
    /\ Forall (fun c => 32 <= ord c <= 126) (list_ascii_of_string text)
    /\ lstrip text = text /\ rstrip text = text.
Proof.
  intros H0. destruct (Z.le_gt_cases (len data) offset) as [Hge|Hlt].
  { exists EmptyString. rewrite extract_message_past_end by done.
    repeat split; [cbn; lia | constructor]. }
  rewrite extract_message_closed by lia.
  eexists. split; [reflexivity|].
  destruct (clean_text_is_clean
              (until_nul (message_window data offset max_len)))
    as (Hlen & Hprint & Hl & Hr).
  pose proof (scanned_window_length data offset max_len) as Hwin.
  split; [lia|]. split; [exact Hprint|]. split; [exact Hl | exact Hr].
Qed.

Lemma single_blob_text_is_clean :
  exists text,
    extract_message single_blob 16 3 = Ret text
    /\ Z.of_nat (String.length text) <= Z.max 0 3
    /\ Forall (fun c => 32 <= ord c <= 126) (list_ascii_of_string text)
    /\ lstrip text = text /\ rstrip text = text.
Proof.
  apply (extract_message_text_is_clean single_blob 16 3). lia.
Defined.

(** The bytes in front of the offset play no part: resolving at
    [len(pre) + offset] in [pre ++ data] is resolving at [offset] in
    [data]. *)
Theorem extract_message_ignores_prefix pre data offset max_len :
  0 <= offset ->
  extract_message (pre ++ data) (len pre + offset) max_len
  = extract_message data offset max_len.
Proof.
  intros H0. pose proof (len_nonneg pre) as Hp.
  destruct (Z.le_gt_cases (len data) offset) as [Hge|Hlt].
  - rewrite !extract_message_past_end; [done | done | rewrite len_app; lia].
  - rewrite !extract_message_closed by (rewrite ?len_app; lia).
    unfold message_window.
    replace (Z.to_nat (len pre + offset)) with (length pre + Z.to_nat offset)%nat
      by (unfold len; lia).
    by rewrite drop_app_add.
Qed.

Lemma extract_message_ignores_prefix_example :
  extract_message (replicate 16 Byte.xff ++ bytes_of "Single") (len (replicate 16 Byte.xff) + 0) 100
  = extract_message (bytes_of "Single") 0 100.
Proof.
  apply extract_message_ignores_prefix. lia.
Defined.

Lemma byte_val_byte_of_ascii c : byte_val (byte_of_ascii c) = ord c.
Proof.
  unfold byte_val, ord. f_equal.
  apply Byte.to_of_N. symmetry. apply byte_of_ascii_via_N.
Qed.

Lemma decode_ascii_ignore_bytes_of s :
  Forall (fun c => ord c < 128) (list_ascii_of_string s) ->
  decode_ascii_ignore (bytes_of s) = s.
Proof.
  unfold bytes_of, list_byte_of_string.
  induction s as [|c s IH]; [done|]. intros H.
  inversion H as [|? ? Hc Hs]; subst.
  cbn [list_ascii_of_string map decode_ascii_ignore].
  rewrite byte_val_byte_of_ascii.
  destruct (Z.ltb_spec (ord c) 128); [|lia].
  by rewrite ascii_of_byte_of_ascii, IH.
Qed.

Lemma keep_chars_all keep s :
  Forall (fun c => keep c = true) (list_ascii_of_string s) ->
  keep_chars keep s = s.
Proof.
  induction s as [|c s IH]; [done|]. intros H.
  inversion H as [|? ? Hc Hs]; subst.
  cbn [keep_chars]. by rewrite Hc, IH.
Qed.

Lemma until_nul_take_app s post (n : nat) :
  Forall (fun c => ord c <> 0) (list_ascii_of_string s) ->
  (String.length s <= n)%nat ->
  until_nul (take n (bytes_of s ++ Byte.x00 :: post)) = bytes_of s.
Proof.
  unfold bytes_of, list_byte_of_string. revert n.
  induction s as [|c s IH]; intros n H Hn.
  - cbn [list_ascii_of_string map app]. by destruct n.
  - inversion H as [|? ? Hc Hs]; subst.
    cbn [String.length] in Hn. destruct n as [|n]; [lia|].
    cbn [list_ascii_of_string map app take until_nul].
    rewrite byte_val_byte_of_ascii.
    destruct (Z.eqb_spec (ord c) 0); [done|].
    f_equal. apply IH; [done|lia].
Qed.

Lemma stored_text_in_range pre post s :
  0 <= len pre < len (pre ++ bytes_of s ++ Byte.x00 :: post).
Proof.
  rewrite !len_app. pose proof (len_nonneg pre).
  pose proof (len_nonneg (bytes_of s)).
  assert (1 <= len (Byte.x00 :: post)) by (unfold len; cbn [length]; lia).
  lia.
Qed.

(** The scan of a stored text stops in front of its zero byte, and
    cleaning the scanned bytes gives the text back. *)
Lemma stored_text_scanned pre post s max_len :
  Forall (fun c => isprintable c = true) (list_ascii_of_string s) ->
  lstrip s = s -> rstrip s = s ->
  Z.of_nat (String.length s) <= max_len ->
  clean_text (until_nul (message_window
                           (pre ++ bytes_of s ++ Byte.x00 :: post)
                           (len pre) max_len))
  = s.
Proof.
  intros Hprint Hl Hr Hlen.
  assert (Forall (fun c => 32 <= ord c <= 126) (list_ascii_of_string s)) as Hord.
  { eapply Forall_impl; [exact Hprint|]. intros c Hc.
    unfold isprintable in Hc. apply andb_true_iff in Hc as [H1 H2]. lia. }
  unfold message_window.
  replace (Z.to_nat (len pre)) with (length pre) by (unfold len; lia).
  rewrite drop_app_length.
  rewrite until_nul_take_app;
    [|eapply Forall_impl; [exact Hord|]; cbn; lia | lia].
  unfold clean_text.
  rewrite decode_ascii_ignore_bytes_of
    by (eapply Forall_impl; [exact Hord|]; cbn; lia).
  rewrite keep_chars_all.
  - unfold strip. by rewrite Hl, Hr.
  - eapply Forall_impl; [exact Hprint|]. intros c Hc.
    unfold keep_printable. by rewrite Hc.
Qed.

(** Round trip: a text of printable ASCII characters without white
    space at its ends, stored in a blob at some offset and followed by a
    zero byte, is resolved to itself whenever [max_len] is at least its
    length, whatever precedes it and whatever follows the zero byte. *)
Theorem extract_message_round_trip pre post s max_len :
  Forall (fun c => isprintable c = true) (list_ascii_of_string s) ->
  lstrip s = s -> rstrip s = s ->
  Z.of_nat (String.length s) <= max_len ->
  extract_message (pre ++ bytes_of s ++ Byte.x00 :: post) (len pre) max_len
  = Ret s.
Proof.
  intros Hprint Hl Hr Hlen.
  rewrite extract_message_closed by apply stored_text_in_range.
  by rewrite stored_text_scanned.
Qed.

Lemma extract_message_round_trip_example :
  extract_message
    (replicate 16 Byte.xff ++ bytes_of "Home run!" ++ Byte.x00 :: bytes_of "next")
    (len (replicate 16 Byte.xff)) 100
  = Ret "Home run!"%string.
Proof.
  apply extract_message_round_trip.
  - vm_compute. repeat constructor.
  - reflexivity.
  - reflexivity.
  - vm_compute. discriminate.
Defined.

End resolver_properties.

(** * Further properties of the outcome tables *)

Section outcome_table_properties.
Import Py APBAOutcomeParser Closed Samples.
Implicit Types (tbl_data msg_data pre post : list byte) (s : string).

(** The dictionary of the numeric table, slot by slot: the key [k] is
    present exactly when the slot starts at least five bytes before the
    end of the table ([0x20 + 4 k + 4 < len]), its little-endian value
    is neither the sentinel nor past the blob, and the text resolved
    there (at most 200 bytes scanned) is not empty; the entry then holds
    the slot number, the pointer and that text. *)
Theorem numeric_table_entries tbl_data msg_data :
  exists m,
    numeric_outcomes tbl_data msg_data = Ret m
    /\ forall k e,
         m !! k = Some e
         <-> 0 <= k /\ 0x20 + 4 * k + 4 < len tbl_data
             /\ exists value msg_text,
                  unpack_u32_le (slice tbl_data (0x20 + 4 * k) (0x20 + 4 * k + 4))
                  = Some value
                  /\ value <> 0xFFFFFFFF /\ value < len msg_data
                  /\ extract_message msg_data value 200 = Ret msg_text
                  /\ msg_text <> EmptyString
                  /\ e = mkOutcomeEntry k value msg_text.
Proof.
  destruct (numeric_outcomes_spec tbl_data msg_data) as (m & Hm & Hspec).
  exists m. split; [exact Hm|]. intros k e. rewrite Hspec.
  unfold numeric_emits, slot_value, DEFAULT_MAX_LEN.
  split; intros (? & ? & ?); (repeat split; [lia | lia | done]).
Qed.

(** The dictionary of the main table, slot by slot: the key [k] is
    present exactly when [k < 200], the slot lies inside the table
    ([0x10 + 4 k + 4 <= len]), its value is below the length of the
    blob, and the text resolved there (at most 100 bytes scanned) has
    more than two characters. *)
Theorem main_table_entries tbl_data msg_data :
  exists m,
    main_outcomes tbl_data msg_data = Ret m
    /\ forall k e,
         m !! k = Some e
         <-> 0 <= k < 200 /\ 0x10 + 4 * k + 4 <= len tbl_data
             /\ exists msg_offset msg_text,
                  unpack_u32_le (slice tbl_data (0x10 + 4 * k) (0x10 + 4 * k + 4))
                  = Some msg_offset
                  /\ msg_offset < len msg_data
                  /\ extract_message msg_data msg_offset 100 = Ret msg_text
                  /\ 2 < Z.of_nat (String.length msg_text)
                  /\ e = mkOutcomeEntry k msg_offset msg_text.
Proof.
  destruct (main_outcomes_spec tbl_data msg_data) as (m & Hm & Hspec).
  exists m. split; [exact Hm|]. intros k e. rewrite Hspec.
  unfold main_emits, slot_value, max_outcomes.
  split.
  - intros (Hk & Hemit). repeat split; [lia | | | done];
      Z.div_mod_to_equations; lia.
  - intros ((Hk0 & Hk1) & Hin & Hemit). split; [|done].
    Z.div_mod_to_equations. lia.
Qed.

(** Every stored entry is well formed: its [code] is its key, its
    [offset] is a 32-bit value below the length of the blob, and its
    [message] is the resolver's text for that offset; in the main table
    the keys stay below 200. *)
Theorem outcome_entries_are_well_formed tbl_data msg_data :
  (exists m,
      numeric_outcomes tbl_data msg_data = Ret m
      /\ forall k e, m !! k = Some e ->
           code e = k /\ 0 <= k
           /\ 0 <= offset e < len msg_data /\ offset e < 0xFFFFFFFF
           /\ extract_message msg_data (offset e) 200 = Ret (message e)
           /\ 1 <= Z.of_nat (String.length (message e)) <= 200)
  /\ (exists m,
        main_outcomes tbl_data msg_data = Ret m
        /\ forall k e, m !! k = Some e ->
             code e = k /\ 0 <= k < 200
             /\ 0 <= offset e < len msg_data /\ offset e <= 0xFFFFFFFF
             /\ extract_message msg_data (offset e) 100 = Ret (message e)
             /\ 2 < Z.of_nat (String.length (message e)) <= 100).
Proof.
  split.
  - destruct (numeric_outcomes_spec tbl_data msg_data) as (m & Hm & Hspec).
    exists m. split; [exact Hm|]. intros k e He.
    apply Hspec in He as (Hk & Hr & v & t & Hv & Hs & Hlt & Ht & Hne & ->).
    destruct (slot_value_Some tbl_data 0x20 k) as (v' & Hv' & Hb); [lia..|].
    rewrite Hv in Hv'. injection Hv' as <-. cbn [code offset message].
    unfold DEFAULT_MAX_LEN in Ht.
    pose proof Ht as Ht'. rewrite extract_message_closed in Ht' by lia.
    injection Ht' as Ht'.
    destruct (clean_text_is_clean (until_nul (message_window msg_data v 200)))
      as (Hlen & _).
    pose proof (scanned_window_length msg_data v 200) as Hwin.
    rewrite Ht' in Hlen.
    repeat split; try (done || lia).
    destruct t; [done|]. cbn [String.length]. lia.
  - destruct (main_outcomes_spec tbl_data msg_data) as (m & Hm & Hspec).
    exists m. split; [exact Hm|]. intros k e He.
    apply Hspec in He as (Hk & v & t & Hv & Hlt & Ht & Hl & ->).
    assert (0 <= k < 200 /\ 16 + 4 * k + 4 <= len tbl_data) as [Hk' Hin].
    { unfold max_outcomes in Hk. Z.div_mod_to_equations. lia. }
    destruct (slot_value_Some tbl_data 0x10 k) as (v' & Hv' & Hb); [lia..|].
    rewrite Hv in Hv'. injection Hv' as <-. cbn [code offset message].
    pose proof Ht as Ht'. rewrite extract_message_closed in Ht' by lia.
    injection Ht' as Ht'.
    destruct (clean_text_is_clean (until_nul (message_window msg_data v 100)))
      as (Hlen & _).
    pose proof (scanned_window_length msg_data v 100) as Hwin.
    rewrite Ht' in Hlen.
    repeat split; try (done || lia).
Qed.

(** A slot whose pointer is at or past the end of the blob yields no
    entry, in either table. *)
Theorem out_of_range_pointers_are_omitted tbl_data msg_data k value :
  len msg_data <= value ->
  (slot_value tbl_data 0x20 k = Some value ->
   exists m, numeric_outcomes tbl_data msg_data = Ret m /\ m !! k = None)
  /\ (slot_value tbl_data 0x10 k = Some value ->
      exists m, main_outcomes tbl_data msg_data = Ret m /\ m !! k = None).
Proof.
  intros Hge. split; intros Hv.
  - destruct (numeric_outcomes_spec tbl_data msg_data) as (m & Hm & Hspec).
    exists m. split; [exact Hm|].
    destruct (m !! k) as [e|] eqn:E; [|done].
    apply Hspec in E as (_ & _ & v & t & Hv' & _ & Hlt & _).
    rewrite Hv in Hv'. injection Hv' as <-. lia.
  - destruct (main_outcomes_spec tbl_data msg_data) as (m & Hm & Hspec).
    exists m. split; [exact Hm|].
    destruct (m !! k) as [e|] eqn:E; [|done].
    apply Hspec in E as (_ & v & t & Hv' & Hlt & _).
    rewrite Hv in Hv'. injection Hv' as <-. lia.
Qed.

Lemma out_of_range_pointer_example :
  (exists m, numeric_outcomes numeric_table_two_slots [] = Ret m
             /\ m !! 0 = None)
  /\ (exists m, main_outcomes main_table_one_slot [] = Ret m
                /\ m !! 0 = None).
Proof.
  split.
  - apply (proj1 (out_of_range_pointers_are_omitted
                    numeric_table_two_slots [] 0 0 ltac:(vm_compute; discriminate))).
    reflexivity.
  - apply (proj2 (out_of_range_pointers_are_omitted
                    main_table_one_slot [] 0 16 ltac:(vm_compute; discriminate))).
    reflexivity.
Defined.

(** A slot holding the sentinel [0xFFFFFFFF] yields no entry in the
    numeric table, whatever the blob. *)
Theorem numeric_table_omits_sentinel tbl_data msg_data k :
  slot_value tbl_data 0x20 k = Some 0xFFFFFFFF ->
  exists m, numeric_outcomes tbl_data msg_data = Ret m /\ m !! k = None.
Proof.
  intros Hv.
  destruct (numeric_outcomes_spec tbl_data msg_data) as (m & Hm & Hspec).
  exists m. split; [exact Hm|].
  destruct (m !! k) as [e|] eqn:E; [|done].
  apply Hspec in E as (_ & _ & v & t & Hv' & Hs & _).
  rewrite Hv in Hv'. by injection Hv' as <-.
Qed.

Lemma numeric_table_omits_sentinel_example :
  exists m, numeric_outcomes (numeric_table_two_slots ++ [Byte.x00]) seven_blob
            = Ret m
            /\ m !! 1 = None.
Proof.
  apply numeric_table_omits_sentinel. reflexivity.
Defined.

(** With a blob of at most [0xFFFFFFFF] bytes the main table stores no
    entry for a slot holding the sentinel either. *)
Theorem main_table_omits_sentinel_below_4GiB tbl_data msg_data k :
  len msg_data <= 0xFFFFFFFF ->
  slot_value tbl_data 0x10 k = Some 0xFFFFFFFF ->
  exists m, main_outcomes tbl_data msg_data = Ret m /\ m !! k = None.
Proof.
  intros Hlen Hv.
  destruct (main_outcomes_spec tbl_data msg_data) as (m & Hm & Hspec).
  exists m. split; [exact Hm|].
  destruct (m !! k) as [e|] eqn:E; [|done].
  apply Hspec in E as (_ & v & t & Hv' & Hlt & _).
  rewrite Hv in Hv'. injection Hv' as <-. lia.
Qed.

Lemma main_table_omits_sentinel_example :
  exists m, main_outcomes main_table_sentinel single_blob = Ret m
            /\ m !! 0 = None.
Proof.
  apply main_table_omits_sentinel_below_4GiB.
  - vm_compute. discriminate.
  - reflexivity.
Defined.

(** Tables too short to hold a slot the loops visit yield the empty
    dictionary without raising: fewer than [0x25] bytes for the numeric
    table, fewer than [0x14] for the main table (where
    [(len - 0x10) // 4] may be negative); so does an empty blob. *)
Theorem short_tables_yield_no_entries tbl_data msg_data :
  (len tbl_data <= 0x24 -> numeric_outcomes tbl_data msg_data = Ret ∅)
  /\ (len tbl_data < 0x14 -> main_outcomes tbl_data msg_data = Ret ∅)
  /\ (msg_data = [] ->
      numeric_outcomes tbl_data msg_data = Ret ∅
      /\ main_outcomes tbl_data msg_data = Ret ∅).
Proof.
  destruct (numeric_outcomes_spec tbl_data msg_data) as (mN & HN & HspecN).
  destruct (main_outcomes_spec tbl_data msg_data) as (mM & HM & HspecM).
  rewrite HN, HM.
  assert (forall m : gmap Z OutcomeEntry,
             (forall k e, m !! k = Some e -> False) -> Ret m = Ret (∅ : gmap Z OutcomeEntry))
    as Hempty.
  { intros m H. apply (f_equal Ret). apply map_empty. intros k.
    destruct (m !! k) as [e|] eqn:E; [|done]. by destruct (H k e). }
  split; [|split].
  - intros Hlen. apply Hempty. intros k e He.
    apply HspecN in He. lia.
  - intros Hlen. apply Hempty. intros k e He.
    apply HspecM in He as [Hk _]. unfold max_outcomes in Hk.
    Z.div_mod_to_equations. lia.
  - intros Hmsg. subst msg_data. split.
    + apply Hempty. intros k e He.
      apply HspecN in He as (Hk & Hr & v & t & Hv & _ & Hlt & _).
      destruct (slot_value_Some tbl_data 0x20 k) as (v' & Hv' & Hb); [lia..|].
      rewrite Hv in Hv'. injection Hv' as <-. unfold len in Hlt. cbn [length] in Hlt. lia.
    + apply Hempty. intros k e He.
      apply HspecM in He as (Hk & v & t & Hv & Hlt & _).
      assert (16 + 4 * k + 4 <= len tbl_data).
      { unfold max_outcomes in Hk. Z.div_mod_to_equations. lia. }
      destruct (slot_value_Some tbl_data 0x10 k) as (v' & Hv' & Hb); [lia..|].
      rewrite Hv in Hv'. injection Hv' as <-. unfold len in Hlt. cbn [length] in Hlt. lia.
Qed.

(** The off-by-one of the numeric loop at a table of two slots: the
    second slot is never read. *)
Lemma numeric_outcomes_skip_last_slot_example :
  exists m, numeric_outcomes numeric_table_two_slots seven_blob = Ret m
            /\ m !! (2 - 1) = None.
Proof.
  apply numeric_outcomes_skip_last_slot. reflexivity.
Defined.

(** [parse_tables] writes the keys ["numeric"] and ["main"] of
    [self.outcomes] and nothing else: both keys are present afterwards,
    every other key keeps its value, and the files are as before. *)
Theorem parse_tables_writes_two_keys (st : ParserState) :
  exists st1 out,
    parse_tables st = Ret (st1, out)
    /\ out = outcomes st1
    /\ files st1 = files st
    /\ numeric_outcomes (B3EHNUM_TBL (files st)) (B3EHNUM_MSG (files st))
       = Ret (default ∅ (out !! "numeric"%string))
    /\ main_outcomes (B3EHMSG_TBL (files st)) (B3EHMSG_MSG (files st))
       = Ret (default ∅ (out !! "main"%string))
    /\ is_Some (out !! "numeric"%string) /\ is_Some (out !! "main"%string)
    /\ forall key, key <> "numeric"%string -> key <> "main"%string ->
         out !! key = outcomes st !! key.
Proof.
  destruct (parse_tables_closed st) as (numeric & main & Hn & Hm & Hrun).
  eexists _, _. split; [exact Hrun|]. cbn [files outcomes].
  rewrite lookup_insert_eq.
  rewrite lookup_insert_ne, lookup_insert_eq by done. cbn [default].
  repeat split; try done.
  intros key H1 H2. by rewrite !lookup_insert_ne.
Qed.

(** End to end through the main table: a slot among the first 200 that
    points at a text of 3 to 100 printable characters without white
    space at its ends, stored in the blob and followed by a zero byte,
    yields the entry with that slot number, pointer and text. *)
Theorem main_table_resolves_stored_text tbl_data pre post s k :
  0 <= k < max_outcomes tbl_data ->
  slot_value tbl_data 0x10 k = Some (len pre) ->
  Forall (fun c => isprintable c = true) (list_ascii_of_string s) ->
  lstrip s = s -> rstrip s = s ->
  2 < Z.of_nat (String.length s) <= 100 ->
  exists m,
    main_outcomes tbl_data (pre ++ bytes_of s ++ Byte.x00 :: post) = Ret m
    /\ m !! k = Some (mkOutcomeEntry k (len pre) s).
Proof.
  intros Hk Hv Hprint Hl Hr Hlen.
  destruct (main_outcomes_spec tbl_data (pre ++ bytes_of s ++ Byte.x00 :: post))
    as (m & Hm & Hspec).
  exists m. split; [exact Hm|]. apply Hspec. split; [done|].
  exists (len pre), s. split; [done|]. split.
  - apply stored_text_in_range.
  - split; [|split; [lia|done]].
    rewrite extract_message_closed by apply stored_text_in_range.
    rewrite stored_text_scanned; (done || lia).
Qed.

(** The specification's second end-to-end example: the pointer
    [0x00000010] into a blob whose bytes from [0x10] are ["Single\0"]. *)
Lemma main_table_resolves_single :
  exists m,
    main_outcomes main_table_one_slot
      (replicate 16 Byte.x00 ++ bytes_of "Single" ++ Byte.x00 :: []) = Ret m
    /\ m !! 0 = Some (mkOutcomeEntry 0 (len (replicate 16 Byte.x00)) "Single").
Proof.
  apply main_table_resolves_stored_text.
  - vm_compute. split; [discriminate | reflexivity].
  - reflexivity.
  - vm_compute. repeat constructor.
  - reflexivity.
  - reflexivity.
  - vm_compute. split; [reflexivity | discriminate].
Defined.

(** End to end through the numeric table: a slot the loop visits that
    points (with a value other than the sentinel) at a non-empty text of
    at most 200 printable characters without white space at its ends,
    stored in the blob and followed by a zero byte, yields the entry
    with that slot number, pointer and text. *)
Theorem numeric_table_resolves_stored_text tbl_data pre post s k :
  0 <= k -> 0x20 + 4 * k + 4 < len tbl_data ->
  slot_value tbl_data 0x20 k = Some (len pre) ->
  len pre <> 0xFFFFFFFF ->
  Forall (fun c => isprintable c = true) (list_ascii_of_string s) ->
  lstrip s = s -> rstrip s = s ->
  1 <= Z.of_nat (String.length s) <= 200 ->
  exists m,
    numeric_outcomes tbl_data (pre ++ bytes_of s ++ Byte.x00 :: post) = Ret m
    /\ m !! k = Some (mkOutcomeEntry k (len pre) s).
Proof.
  intros Hk Hin Hv Hs Hprint Hl Hr Hlen.
  destruct (numeric_outcomes_spec tbl_data
              (pre ++ bytes_of s ++ Byte.x00 :: post)) as (m & Hm & Hspec).
  exists m. split; [exact Hm|]. apply Hspec.
  split; [done|]. split; [lia|].
  exists (len pre), s. split; [done|]. split; [done|]. split.
  - apply stored_text_in_range.
  - split; [|split; [|done]].
    + unfold DEFAULT_MAX_LEN.
      rewrite extract_message_closed by apply stored_text_in_range.
      rewrite stored_text_scanned; (done || lia).
    + destruct s; [cbn [String.length] in Hlen; lia | done].
Qed.

Lemma numeric_table_resolves_seven :
  exists m,
    numeric_outcomes numeric_table_two_slots ([] ++ bytes_of "7" ++ Byte.x00 :: [])
    = Ret m
    /\ m !! 0 = Some (mkOutcomeEntry 0 (len (@nil byte)) "7").
Proof.
  apply numeric_table_resolves_stored_text.
  - lia.
  - vm_compute. reflexivity.
  - reflexivity.
  - vm_compute. discriminate.
  - vm_compute. repeat constructor.
  - reflexivity.
  - reflexivity.
  - vm_compute. split; discriminate.
Defined.

End outcome_table_properties.

(** * The record-boundary search *)

Section boundary_search.
Import Py APBAStructure Samples.
Implicit Types (data : list byte) (starts acc : list Z).

(** One step of the search, for an index inside the buffer. *)
Lemma boundary_step_cases data i acc :
  0 <= i < len data ->
  exists b,
    index data i = Some b
    /\ boundary_step data i acc
       = Ret (if (3 <=? b) && (b <=? 15)
                 && name_like (slice data (i + 1) (i + 6))
              then acc ++ [i] else acc).
Proof.
  intros Hi. destruct (index_Some data i Hi) as (b & Hb & _).
  exists b. split; [done|]. unfold boundary_step. rewrite Hb.
  cbn [of_option mbind res_bind].
  destruct ((3 <=? b) && (b <=? 15)); cbn [andb]; [|done].
  by destruct (name_like _).
Qed.

Lemma boundary_loop_spec data (n : nat) m acc :
  0 <= m -> m + Z.of_nat n <= len data ->
  StronglySorted Z.lt acc -> Forall (fun a => a < m) acc ->
  exists starts,
    boundary_loop (seqZ m (Z.of_nat n)) data acc = Ret starts
    /\ StronglySorted Z.lt starts
    /\ Forall (fun a => a < m + Z.of_nat n) starts
    /\ forall i, i ∈ starts
         <-> i ∈ acc
             \/ (m <= i < m + Z.of_nat n
                 /\ exists b, index data i = Some b /\ 3 <= b <= 15
                      /\ name_like (slice data (i + 1) (i + 6)) = true).
Proof.
  revert m acc.
  induction n as [|n IH]; intros m acc Hm Hlen Hsorted Hbelow.
  - exists acc. cbn [boundary_loop seqZ]. rewrite seqZ_nil by lia.
    split; [done|]. split; [done|]. split.
    + eapply Forall_impl; [exact Hbelow|]. intros a Ha. simpl in Ha. lia.
    + intros i. split; [by left|]. intros [?|[? _]]; [done|lia].
  - rewrite seqZ_cons by lia. cbn [boundary_loop].
    destruct (boundary_step_cases data m acc) as (b & Hb & ->); [lia|].
    cbn [mbind res_bind].
    replace (Z.pred (Z.of_nat (S n))) with (Z.of_nat n) by lia.
    set (hit := (3 <=? b) && (b <=? 15)
                && name_like (slice data (m + 1) (m + 6))).
    destruct (IH (Z.succ m) (if hit then acc ++ [m] else acc))
      as (starts & Hrun & Hs & Hb' & Hmem); [lia | lia | | |].
    + destruct hit; [|done].
      apply StronglySorted_app_2; [|done|repeat constructor].
      intros x1 x2 H1 H2. apply list_elem_of_singleton in H2 as ->.
      rewrite Forall_forall in Hbelow. by apply Hbelow.
    + assert (Forall (fun a => a < Z.succ m) acc) as Hacc.
      { eapply Forall_impl; [exact Hbelow|]. intros a Ha. simpl in Ha. lia. }
      destruct hit; [|done]. apply Forall_app. split; [done|].
      constructor; [lia|constructor].
    + exists starts. split; [exact Hrun|]. split; [exact Hs|]. split.
      * eapply Forall_impl; [exact Hb'|]. intros a Ha. simpl in Ha. lia.
      * intros i. rewrite Hmem. clear Hmem Hrun IH.
        assert (hit = true
                <-> exists b', index data m = Some b' /\ 3 <= b' <= 15
                      /\ name_like (slice data (m + 1) (m + 6)) = true)
          as Hhit.
        { subst hit. rewrite !andb_true_iff, !Z.leb_le. split.
          - intros [[? ?] ?]. exists b. repeat split; (done || lia).
          - intros (b' & Hb'' & ? & ?). rewrite Hb in Hb''.
            injection Hb'' as <-. repeat split; (done || lia). }
        assert (i ∈ (if hit then acc ++ [m] else acc)
                <-> i ∈ acc \/ (i = m /\ hit = true)) as ->.
        { destruct hit.
          - rewrite elem_of_app, list_elem_of_singleton. split.
            + intros [? | ->]; [by left | by right].
            + intros [? | [-> _]]; [by left | by right].
          - split; [by left|]. intros [?|[_ ?]]; done. }
        rewrite Hhit. clear Hhit.
        split.
        -- intros [[?|[-> ?]]|[? ?]]; [by left | right | right];
             (split; [lia|done]).
        -- intros [?|[? Hex]]; [by left; left|].
           destruct (decide (i = m)) as [->|].
           ++ left. right. by split.
           ++ right. split; [lia|done].
Qed.

(** The search returns, with a strictly increasing list. *)
Lemma potential_starts_sorted data :
  exists starts,
    potential_starts data = Ret starts /\ StronglySorted Z.lt starts.
Proof.
  unfold potential_starts. pose proof (len_nonneg data) as Hlen.
  destruct (Z.le_gt_cases (len data - 20) 0) as [Hshort|Hlong].
  - rewrite seqZ_nil by lia. exists []. split; [done|constructor].
  - destruct (boundary_loop_spec data (Z.to_nat (len data - 20)) 0 [])
      as (starts & Hrun & Hs & _); [lia | lia | constructor | constructor |].
    rewrite Z2Nat.id in Hrun by lia. by exists starts.
Qed.

(** The search never raises, also on a buffer of fewer than 20 bytes.
    The list it builds is strictly increasing and holds exactly the
    indices [i < len(data) - 20] whose byte is between 3 and 15 and
    whose next five bytes are upper-case letters or spaces. *)
Theorem potential_starts_spec data :
  exists starts,
    potential_starts data = Ret starts
    /\ StronglySorted Z.lt starts
    /\ forall i, i ∈ starts
         <-> 0 <= i < len data - 20
             /\ exists b, index data i = Some b /\ 3 <= b <= 15
                  /\ name_like (slice data (i + 1) (i + 6)) = true.
Proof.
  unfold potential_starts. pose proof (len_nonneg data) as Hlen.
  destruct (Z.le_gt_cases (len data - 20) 0) as [Hshort|Hlong].
  - rewrite seqZ_nil by lia. exists []. cbn [boundary_loop].
    split; [done|]. split; [constructor|]. intros i. split.
    + intros Hi. by apply elem_of_nil in Hi.
    + intros [? _]. lia.
  - destruct (boundary_loop_spec data (Z.to_nat (len data - 20)) 0 [])
      as (starts & Hrun & Hs & _ & Hmem); [lia | lia | constructor | constructor |].
    rewrite Z2Nat.id in Hrun, Hmem by lia.
    exists starts. split; [exact Hrun|]. split; [exact Hs|].
    intros i. rewrite Hmem. split.
    + intros [Hi|[? ?]]; [by apply elem_of_nil in Hi|]. split; [lia|done].
    + intros [? ?]. right. split; [lia|done].
Qed.

(** Two copies of the example record: the search finds the start of
    each. *)
Lemma potential_starts_on_example :
  exists starts,
    potential_starts (leibold_record ++ leibold_record) = Ret starts
    /\ starts = [0; 146].
Proof.
  destruct (potential_starts_spec (leibold_record ++ leibold_record))
    as (starts & Hrun & _).
  exists starts. split; [exact Hrun|].
  vm_compute in Hrun. by injection Hrun as <-.
Defined.

Lemma distance_loop_closed (ps : list Z) (n : nat) (m : nat) (acc : list Z) :
  (m + n + 1 <= length ps)%nat ->
  distance_loop (seqZ (Z.of_nat m) (Z.of_nat n)) ps acc
  = Ret (acc ++ zip_with (fun a b => b - a)
                    (take n (drop m ps)) (drop (S m) ps)).
Proof.
  revert m acc. induction n as [|n IH]; intros m acc Hlen.
  - cbn [Z.of_nat seqZ]. rewrite seqZ_nil by lia. cbn [distance_loop take zip_with].
    by rewrite app_nil_r.
  - rewrite seqZ_cons by lia. cbn [distance_loop].
    destruct (lookup_lt_is_Some_2 ps m) as [a Ha]; [lia|].
    destruct (lookup_lt_is_Some_2 ps (S m)) as [b Hb]; [lia|].
    rewrite !item_nonneg by lia.
    replace (Z.to_nat (Z.of_nat m + 1)) with (S m) by lia.
    rewrite Nat2Z.id, Ha, Hb. cbn [of_option mbind res_bind].
    replace (Z.succ (Z.of_nat m)) with (Z.of_nat (S m)) by lia.
    replace (Z.pred (Z.of_nat (S n))) with (Z.of_nat n) by lia.
    rewrite IH by lia.
    rewrite (drop_S ps a m Ha), (drop_S ps b (S m) Hb).
    cbn [take zip_with]. by rewrite <- app_assoc.
Qed.

Lemma distances_closed (ps : list Z) :
  distances ps = Ret (zip_with (fun a b => b - a) ps (tail ps)).
Proof.
  unfold distances, len.
  destruct ps as [|p ps]; [done|].
  cbn [length tail].
  replace (Z.of_nat (S (length ps)) - 1) with (Z.of_nat (length ps)) by lia.
  change 0 with (Z.of_nat 0).
  rewrite distance_loop_closed by (cbn [length]; lia).
  cbn [app drop]. by rewrite zip_with_take_l.
Qed.

Lemma consecutive_differences (ps : list Z) :
  StronglySorted Z.lt ps ->
  Forall (fun d => 0 < d) (zip_with (fun a b => b - a) ps (tail ps))
  /\ forall first final,
       head ps = Some first -> last ps = Some final ->
       foldr Z.add 0 (zip_with (fun a b => b - a) ps (tail ps))
       = final - first.
Proof.
  induction ps as [|a [|b ps] IH]; intros Hs.
  - split; [constructor|]. by intros first final [=].
  - split; [constructor|]. intros first final [= <-] [= <-]. cbn. lia.
  - apply StronglySorted_inv in Hs as [Hs Ha].
    destruct (IH Hs) as [Hpos Hsum]. cbn [tail] in *. split.
    + change (Forall (fun d => 0 < d)
                ((b - a) :: zip_with (fun a b => b - a) (b :: ps) ps)).
      constructor; [|done]. inversion Ha; subst. lia.
    + intros first final [= <-] Hlast.
      rewrite last_cons in Hlast.
      assert (last (b :: ps) = Some final) as Hlast'.
      { destruct (last (b :: ps)) eqn:E; [done|].
        by rewrite last_cons in E; destruct (last ps). }
      change (foldr Z.add 0
                ((b - a) :: zip_with (fun a b => b - a) (b :: ps) ps)
              = final - a).
      cbn [foldr]. rewrite (Hsum b final eq_refl Hlast'). lia.
Qed.

(** The distances between the starts found: computing them never
    raises, there is one for each pair of neighbours, each is the
    difference of the two neighbours and is positive, and together they
    add up to the span from the first start to the last. *)
Theorem distances_of_potential_starts data :
  exists starts ds,
    potential_starts data = Ret starts
    /\ distances starts = Ret ds
    /\ length ds = pred (length starts)
    /\ (forall i a b, starts !! i = Some a -> starts !! S i = Some b ->
          ds !! i = Some (b - a))
    /\ Forall (fun d => 0 < d) ds
    /\ forall first final,
         head starts = Some first -> last starts = Some final ->
         foldr Z.add 0 ds = final - first.
Proof.
  destruct (potential_starts_sorted data) as (starts & Hrun & Hs).
  exists starts, (zip_with (fun a b => b - a) starts (tail starts)).
  split; [exact Hrun|]. split; [apply distances_closed|].
  destruct (consecutive_differences starts Hs) as [Hpos Hsum].
  split; [|split; [|split; [exact Hpos | exact Hsum]]].
  - rewrite length_zip_with. destruct starts; cbn [tail length]; lia.
  - intros i a b Ha Hb. apply lookup_zip_with_Some.
    exists a, b. split; [done|]. split; [done|].
    by rewrite lookup_tail.
Qed.

End boundary_search.

(** * Which names count as empty *)

Section kept_control_bytes.
Import Py APBAPlayerParser Spec Samples Closed.
Implicit Types (record bs : list byte) (player : PlayerRecord) (s : string).

Lemma ord_ascii_of_byte (b : byte) : ord (ascii_of_byte b) = byte_val b.
Proof.
  unfold ord, byte_val. f_equal.
  rewrite ascii_of_byte_via_N. apply N_ascii_embedding.
  pose proof (Byte.to_N_bounded b). lia.
Qed.

(** [strip] gives the empty text exactly when [lstrip] does. *)
Lemma strip_empty_iff s : strip s = EmptyString <-> lstrip s = EmptyString.
Proof.
  unfold strip. split; [|by intros ->].
  destruct (lstrip_head s) as [->|(c & t & -> & Hc)]; [done|].
  cbn [rstrip]. rewrite Hc. by destruct (rstrip t).
Qed.

(** The code's decoding of a field leaves nothing after [strip] exactly
    when every byte of the field is blank. *)
Lemma stripped_text_empty_iff bs :
  strip (decode_ascii_ignore bs) = EmptyString
  <-> forallb blank_byte bs = true.
Proof.
  rewrite strip_empty_iff.
  induction bs as [|b bs IH]; [done|].
  cbn [decode_ascii_ignore forallb]. unfold blank_byte at 1.
  destruct (Z.ltb_spec (byte_val b) 128) as [Hlt|Hge].
  - cbn [lstrip]. unfold isspace. rewrite ord_ascii_of_byte.
    destruct (Z.leb_spec 128 (byte_val b)); [lia|]. cbn [orb].
    destruct (((9 <=? byte_val b) && (byte_val b <=? 13))
              || ((28 <=? byte_val b) && (byte_val b <=? 32))); [done|].
    cbn [andb]. split; [done|discriminate].
  - destruct (Z.leb_spec 128 (byte_val b)); [|lia]. by cbn [orb andb].
Qed.

(** C1, amended. [parse_player_record] returns no record exactly when
    the slice is shorter than 146 bytes, or its byte at offset 0 is
    outside [1 .. 19], or its last name is empty, where the last name is
    the bytes [0x01 .. 0x0F] decoded as ASCII with only the bytes of
    value 128 or more dropped (control bytes are kept) and then
    stripped of white space: it is empty exactly when every byte of the
    field has value 128 or more or is one of the white-space codes 9 to
    13 and 28 to 32. Every slice of at least 146 bytes whose byte at
    offset 0 is in [1 .. 19] and whose field holds some other byte
    yields a record, whose [last_name] is that text. *)
Theorem C1_rejects_on_three_conditions_control_bytes_kept record :
  (parse_player_record record = None <->
     len record < 146
     \/ (exists n, index record 0x00 = Some n /\ ~ (1 <= n <= 19))
     \/ last_name_text record = EmptyString)
  /\ (last_name_text record = EmptyString
      <-> forallb blank_byte (slice record 0x01 (0x01 + 15)) = true)
  /\ (146 <= len record ->
      (exists n, index record 0x00 = Some n /\ 1 <= n <= 19) ->
      forallb blank_byte (slice record 0x01 (0x01 + 15)) = false ->
      exists player, parse_player_record record = Some player
                     /\ last_name player = last_name_text record
                     /\ last_name player <> EmptyString).
Proof.
  destruct (parse_player_record_None_iff record) as [Hnone Hsome].
  assert (last_name_text record = EmptyString
          <-> forallb blank_byte (slice record 0x01 (0x01 + 15)) = true)
    as Hempty by apply stripped_text_empty_iff.
  split; [exact Hnone|]. split; [exact Hempty|].
  intros Hlen Hbyte Hfield.
  assert (last_name_text record <> EmptyString) as Hname.
  { intros E. apply Hempty in E. congruence. }
  destruct (Hsome Hlen Hbyte Hname) as (p & Hp & Hlast).
  exists p. split; [exact Hp|]. split; [exact Hlast|]. by rewrite Hlast.
Qed.

(** C1, amended, at the record of the end-to-end example. *)
Lemma C1_accepts_leibold_record :
  exists player, parse_player_record leibold_record = Some player
                 /\ last_name player = last_name_text leibold_record
                 /\ last_name player <> EmptyString.
Proof.
  apply (proj2 (proj2 (C1_rejects_on_three_conditions_control_bytes_kept
                         leibold_record))).
  - vm_compute. discriminate.
  - exists 7. vm_compute. repeat split; discriminate.
  - vm_compute. reflexivity.
Defined.

(** C1 as stated fails: a record of 146 bytes whose length byte is 5
    and whose last-name field holds fifteen NUL bytes has, in the
    specification's decoding (control bytes dropped), an empty trimmed
    last name, yet the decoder accepts it, with the fifteen NUL
    characters as [last_name]. *)
Lemma C1_nul_name_is_accepted :
  len nul_name_record = 146
  /\ index nul_name_record 0x00 = Some 5
  /\ last_name_text_spec nul_name_record = EmptyString
  /\ exists player,
       parse_player_record nul_name_record = Some player
       /\ last_name player = fifteen_nuls
       /\ last_name player <> EmptyString.
Proof.
  split; [reflexivity|]. split; [reflexivity|]. split; [by vm_compute|].
  eexists. split; [vm_compute; reflexivity|].
  cbn [last_name]. split; [by vm_compute | discriminate].
Qed.

(** C6 as stated fails: the record has every byte the claim names
    (length byte 7 and ["LEIBOLD"], length byte 4 and ["Nemo"], both
    name fields padded with spaces, ["OF 3 L 07"] from offset [0x86]),
    the three bytes after the descriptor text being zero; it is
    accepted, and the three NUL characters stay in [card_number]. *)
Lemma C6_nul_padding_stays_in_card_number :
  let record := synthetic_record (replicate 102 Byte.x00) leibold_descriptor_nul in
  len record = 146
  /\ slice record 0x86 (0x86 + 9) = bytes_of "OF 3 L 07"
  /\ exists player,
       parse_player_record record = Some player
       /\ last_name player = "LEIBOLD"%string
       /\ first_name player = "Nemo"%string
       /\ position player = "OF"%string
       /\ grade player = "3"%string
       /\ bats player = "L"%string
       /\ card_number player = card_07_nuls
       /\ card_number player <> "07"%string.
Proof.
  cbv zeta. split; [reflexivity|]. split; [by vm_compute|].
  eexists. split; [vm_compute; reflexivity|].
  cbn [last_name first_name position grade bats card_number].
  repeat split; by vm_compute.
Qed.

End kept_control_bytes.
